(** * The suggestion engine of the task management API (main.py)

    A shallow embedding of [TaskSuggestionEngine] and of the endpoint
    [get_smart_suggestions], together with the Python primitives they call.

    Conventions.
    - A Python [str] is a [string]; its characters are 8-bit [ascii] codes.
      The character tables ([lower], [upper], the classes behind [\w] and
      [\s]) are those of Python on the ASCII range; a code of 128 and above
      is left alone by [lower] and [upper] and belongs to neither class.
      So [Py] and [TaskSuggestionEngine] are the code on ASCII text. For
      text of any characters, [Unicode] gives [extract_keywords] on code
      points with Python's tables as parameters, and on ASCII text the two
      agree ([faithful_extract_keywords]).
    - A [List[str]] is a [list string], a [Set[str]] is a [gset string].
    - A [Counter] is a dict, which iterates in insertion order: it is an
      association list that keeps the keys in the order they were first
      counted.
    - The database session is read through two queries; the engine runs in a
      small monad that reads the session and logs every query it issues. *)

From Stdlib Require Import Ascii String.
From stdpp Require Import gmap strings list sorting pretty.

#[local] Set Warnings "-clear-no-such-hyp".

(** ** Python string primitives *)

Module Py.

Definition code (c : ascii) : nat := nat_of_ascii c.

Definition is_upper (c : ascii) : bool := (65 <=? code c) && (code c <=? 90).
Definition is_lower (c : ascii) : bool := (97 <=? code c) && (code c <=? 122).
Definition is_digit (c : ascii) : bool := (48 <=? code c) && (code c <=? 57).

(** [\w]: letters, digits and the underscore. *)
Definition is_word (c : ascii) : bool :=
  is_upper c || is_lower c || is_digit c || (code c =? 95).

(** [\s] and the separators of [str.split()]: tab, line feed, vertical tab,
    form feed, carriage return, the four separators 28 to 31, and space. *)
Definition is_space (c : ascii) : bool :=
  ((9 <=? code c) && (code c <=? 13)) ||
  ((28 <=? code c) && (code c <=? 31)) ||
  (code c =? 32).

Definition lower_char (c : ascii) : ascii :=
  if is_upper c then ascii_of_nat (code c + 32) else c.

Definition upper_char (c : ascii) : ascii :=
  if is_lower c then ascii_of_nat (code c - 32) else c.

Fixpoint map_chars (f : ascii → ascii) (s : string) : string :=
  match s with
  | EmptyString => EmptyString
  | String c s' => String (f c) (map_chars f s')
  end.

(** [s.lower()] *)
Definition lower (s : string) : string := map_chars lower_char s.

(** [s.capitalize()]: the first character in upper case, the rest in lower
    case. *)
Definition capitalize (s : string) : string :=
  match s with
  | EmptyString => EmptyString
  | String c s' => String (upper_char c) (lower s')
  end.

(** [re.sub(r'[^\w\s]', ' ', s)]: each character outside both classes is
    replaced by one space. *)
Definition sub_special (s : string) : string :=
  map_chars (λ c, if is_word c || is_space c then c else " "%char) s.

(** [s.split()]: scan from the left; [cur] is the token being read. A
    whitespace character closes the token if there is one, and runs of
    whitespace produce no empty token. *)
Fixpoint split_from (cur : string) (s : string) : list string :=
  match s with
  | EmptyString => if String.eqb cur "" then [] else [cur]
  | String c s' =>
      if is_space c then
        if String.eqb cur "" then split_from "" s'
        else cur :: split_from "" s'
      else split_from (cur +:+ String c "") s'
  end.

Definition split (s : string) : list string := split_from "" s.

(** [s.split(sep)] for a one-character separator: every occurrence cuts, so
    the result is never empty and may hold empty parts. *)
Fixpoint split_on (sep : ascii) (s : string) : list string :=
  match s with
  | EmptyString => [""]
  | String c s' =>
      if Ascii.eqb c sep then "" :: split_on sep s'
      else match split_on sep s' with
           | [] => [String c ""]
           | part :: parts => String c part :: parts
           end
  end.

(** [sep.join(parts)] *)
Fixpoint join (sep : string) (parts : list string) : string :=
  match parts with
  | [] => ""
  | [p] => p
  | p :: ps => p +:+ sep +:+ join sep ps
  end.

(** [template.format(arg)] for templates whose only replacement fields are
    the automatic [{}]: the argument is written in place of the field. *)
Fixpoint format (template arg : string) : string :=
  match template with
  | EmptyString => EmptyString
  | String "{"%char (String "}"%char rest) => arg +:+ format rest arg
  | String c rest => String c (format rest arg)
  end.

End Py.

(** ** collections.Counter *)

Module Counter.

(** The items of the counter, in the order their keys were inserted. *)
Definition t : Type := list (string * nat).

(** [c[k] = c.get(k, 0) + 1]: an existing key keeps its place, a new key is
    inserted last. *)
Fixpoint incr (k : string) (c : t) : t :=
  match c with
  | [] => [(k, 1)]
  | (k', n) :: c' =>
      if String.eqb k k' then (k', S n) :: c' else (k', n) :: incr k c'
  end.

(** [Counter(iterable)] counts the elements one by one, from the left. *)
Definition of_list (l : list string) : t := foldl (λ c k, incr k c) [] l.

(** [c[k]], which is 0 for a missing key. *)
Fixpoint get (k : string) (c : t) : nat :=
  match c with
  | [] => 0
  | (k', n) :: c' => if String.eqb k k' then n else get k c'
  end.

(** Insertion of an item into a list sorted by descending count, before the
    first item whose count is not larger. *)
Fixpoint insert_desc (x : string * nat) (l : t) : t :=
  match l with
  | [] => [x]
  | y :: l' => if x.2 <? y.2 then y :: insert_desc x l' else x :: l
  end.

(** [sorted(c.items(), key=itemgetter(1), reverse=True)]: Python's sort is
    stable, also with [reverse=True], so items of equal count stay in
    insertion order. *)
Definition sorted_desc (c : t) : t := foldr insert_desc [] c.

(** [c.most_common(n)] is [heapq.nlargest(n, c.items(), key=itemgetter(1))],
    which returns what [sorted(..., reverse=True)[:n]] returns. *)
Definition most_common (n : nat) (c : t) : t := take n (sorted_desc c).

End Counter.

(** ** The task table and the session *)

Inductive TaskStatus := PENDING | IN_PROGRESS | COMPLETED.

(** A row of the table [tasks]. The three date columns are left out: the
    engine selects [title] and [description] only. The schema declares
    [title] NOT NULL; the engine filters on it all the same, so the column is
    kept optional here. *)
Record Task := {
  id : nat;
  title : option string;
  description : option string;
  status : TaskStatus;
}.

(** What a session shows: the rows, in the order a query returns them. *)
Definition Session : Type := list Task.

Inductive query := SelectTitle | SelectDescription.

(** Computations that read the session and log the queries they issue. *)
Definition DB (A : Type) : Type := Session → A * list query.

Global Instance DB_ret : MRet DB := λ A a _, (a, []).

Global Instance DB_bind : MBind DB := λ A B k m db,
  let '(a, log1) := m db in
  let '(b, log2) := k a db in
  (b, log1 ++ log2).

(** [db.query(Task.title).filter(Task.title.isnot(None)).all()], first
    component of every tuple *)
Definition query_titles : DB (list string) :=
  λ db, (omap title db, [SelectTitle]).

(** [db.query(Task.description).filter(Task.description.isnot(None)).all()],
    first component of every tuple *)
Definition query_descriptions : DB (list string) :=
  λ db, (omap description db, [SelectDescription]).

Record TaskSuggestion := { suggested_title : string }.

(** ** TaskSuggestionEngine *)

Module TaskSuggestionEngine.

Definition stop_words : gset string :=
  {[ "the"; "and"; "for"; "with"; "are"; "was"; "were"; "been"; "have";
     "has"; "had"; "does"; "did"; "will"; "would"; "could"; "should" ]}.

Definition extract_keywords (text : string) : list string :=
  if String.eqb text "" then []
  else
    let cleaned := Py.sub_special (Py.lower text) in
    let words := Py.split cleaned in
    filter (λ word, 2 < String.length word ∧ word ∉ stop_words) words.

Definition suggestion_templates : list string :=
  [ "Follow-up on {}";
    "Finalize {}";
    "Plan next steps for {}";
    "Schedule meeting for {}";
    "Prepare report regarding {}";
    "Start working on {}" ].

(** [" ".join(part.capitalize() for part in keyword.split('-'))] *)
Definition format_keyword (keyword : string) : string :=
  Py.join " " (Py.capitalize <$> Py.split_on "-" keyword).

(** The two accumulators of the generation loops. *)
Record gen_state := {
  suggestions : list TaskSuggestion;
  generated_titles : gset string;
}.

Definition emit (suggested_title : string) (st : gen_state) : gen_state :=
  {| suggestions := suggestions st ++ [ {| suggested_title := suggested_title |} ];
     generated_titles := generated_titles st ∪ {[ suggested_title ]} |}.

(** The loop over the templates for one keyword; [made] is
    [suggestions_made_for_this_keyword]. It returns the accumulators and the
    counter as the loop leaves them. *)
Fixpoint template_loop (formatted_keyword : string) (templates : list string)
    (st : gen_state) (made : nat) : gen_state * nat :=
  match templates with
  | [] => (st, made)
  | template :: templates' =>
      if 3 <=? made then (st, made)
      else
        let suggested_title := Py.format template formatted_keyword in
        if decide (suggested_title ∈ generated_titles st)
        then template_loop formatted_keyword templates' st made
        else template_loop formatted_keyword templates'
               (emit suggested_title st) (S made)
  end.

(** One round of the loop over the keywords. *)
Definition keyword_step (st : gen_state) (keyword : string) : gen_state :=
  (template_loop (format_keyword keyword) suggestion_templates st 0).1.

(** The loop over the keywords, from empty accumulators, and the list it
    leaves in [suggestions]. *)
Definition synthesize (top_keywords : list string) : list TaskSuggestion :=
  suggestions
    (foldl keyword_step {| suggestions := []; generated_titles := ∅ |}
       top_keywords).

(** The first half of [generate_suggestions], down to [top_keywords];
    [None] stands for each of its three [return []]. *)
Definition rank_keywords : DB (option (list string)) :=
  all_task_titles ← query_titles;
  if bool_decide (all_task_titles = []) then mret None
  else
    let all_keywords :=
      foldl (λ acc title, acc ++ extract_keywords title) [] all_task_titles in
    all_task_descriptions ← query_descriptions;
    let all_keywords :=
      foldl (λ acc description, acc ++ extract_keywords description)
        all_keywords all_task_descriptions in
    if bool_decide (all_keywords = []) then mret None
    else
      let keyword_counts := Counter.of_list all_keywords in
      let most_common_keywords_with_counts :=
        Counter.most_common 5 keyword_counts in
      if bool_decide (most_common_keywords_with_counts = []) then mret None
      else mret (Some (fst <$> most_common_keywords_with_counts)).

Definition generate_suggestions : DB (list TaskSuggestion) :=
  ranked ← rank_keywords;
  match ranked with
  | None => mret []
  | Some top_keywords => mret (synthesize top_keywords)
  end.

End TaskSuggestionEngine.

(** ** extract_keywords on Unicode text *)

(** A [str] of any characters is a list of code points. What Python's
    Unicode database decides is taken as a parameter: the classes behind
    [\w] and behind [\s] (the latter is also what [str.split()] cuts at), and
    [str.lower], which is a function of the whole string (a capital sigma
    lowers differently at the end of a word). [TaskSuggestionEngine] above is
    the instance of this code on ASCII text. *)
Module Unicode.

Record tables := {
  is_word : N → bool;
  is_space : N → bool;
  lower : list N → list N;
}.

(** A string literal of the source, as code points. *)
Definition codes (s : string) : list N :=
  N_of_ascii <$> list_ascii_of_string s.

Definition stop_words : gset (list N) :=
  {[ codes "the"; codes "and"; codes "for"; codes "with"; codes "are";
     codes "was"; codes "were"; codes "been"; codes "have"; codes "has";
     codes "had"; codes "does"; codes "did"; codes "will"; codes "would";
     codes "could"; codes "should" ]}.

Section engine.

Variable T : tables.

(** [re.sub(r'[^\w\s]', ' ', s)] *)
Definition sub_special (s : list N) : list N :=
  (λ c, if is_word T c || is_space T c then c else 32%N) <$> s.

(** [s.split()] *)
Fixpoint split_from (cur : list N) (s : list N) : list (list N) :=
  match s with
  | [] => if decide (cur = []) then [] else [cur]
  | c :: s' =>
      if is_space T c then
        if decide (cur = []) then split_from [] s'
        else cur :: split_from [] s'
      else split_from (cur ++ [c]) s'
  end.

Definition split (s : list N) : list (list N) := split_from [] s.

Definition extract_keywords (text : list N) : list (list N) :=
  if decide (text = []) then []
  else
    let cleaned := sub_special (lower T text) in
    let words := split cleaned in
    filter (λ word, 2 < length word ∧ word ∉ stop_words) words.

End engine.

End Unicode.

(** ** The endpoint GET /tasks/suggestions/smart *)

Definition default_suggestions : list TaskSuggestion :=
  [ {| suggested_title := "Weekly Planning Session" |};
    {| suggested_title := "Project Status Review" |};
    {| suggested_title := "Team Meeting Preparation" |} ].

Definition get_smart_suggestions : DB (list TaskSuggestion) :=
  suggestions ← TaskSuggestionEngine.generate_suggestions;
  if bool_decide (suggestions = []) then mret default_suggestions
  else mret suggestions.

(** ** The endpoints on one task *)

(** [HTTPException(status_code=..., detail=...)] *)
Record HTTPException := { status_code : nat; detail : string }.

Definition task_not_found : HTTPException :=
  {| status_code := 404; detail := "Task not found" |}.

(** [db.query(Task).filter(Task.id == task_id).first()]: the first row with
    the identifier, [None] when there is none. The path parameter is any
    integer; the query is the one the database runs for an identifier it
    can store, a signed 64-bit integer (for others the driver refuses the
    parameter before any query). *)
Definition first_by_id (task_id : Z) (db : Session) : option Task :=
  find (λ row, bool_decide (Z.of_nat (id row) = task_id)) db.

(** GET /tasks/{task_id} *)
Definition get_task (task_id : Z) (db : Session) : HTTPException + Task :=
  match first_by_id task_id db with
  | None => inl task_not_found
  | Some task => inr task
  end.

(** DELETE /tasks/{task_id}: the message returned and the table after the
    commit. [db.delete] of a mapped row deletes by primary key: the rows of
    the identifier go. *)
Definition delete_task (task_id : Z) (db : Session) :
    HTTPException + (string * Session) :=
  match first_by_id task_id db with
  | None => inl task_not_found
  | Some db_task =>
      inr ("Task with id: " +:+ pretty task_id +:+ " deleted successfully",
           filter (λ row, Z.of_nat (id row) ≠ task_id) db)
  end.

(** ** The counting queries of GET /tasks/statistics/overview *)

Global Instance TaskStatus_eq_dec : EqDecision TaskStatus.
Proof. solve_decision. Defined.

(** [db.query(Task).filter(Task.status == s).count()] *)
Definition count_status (s : TaskStatus) (db : Session) : nat :=
  length (filter (λ row, status row = s) db).

(** The entries [total_tasks], [pending_tasks], [in_progress_tasks] and
    [completed_tasks] of the answer, each with the query that computes it.
    The two other entries are left out: [tasks_due_soon] reads the clock and
    the date column, [completion_rate] is a floating-point quotient. *)
Record task_counts := {
  total_tasks : nat;
  pending_tasks : nat;
  in_progress_tasks : nat;
  completed_tasks : nat;
}.

Definition get_task_counts (db : Session) : task_counts :=
  {| total_tasks := length db;
     pending_tasks := count_status PENDING db;
     in_progress_tasks := count_status IN_PROGRESS db;
     completed_tasks := count_status COMPLETED db |}.

(** * Notions the statements use *)

(** ** Ranking *)

(** Number of occurrences of [k] in [l]. *)
Definition occurrences (k : string) (l : list string) : nat :=
  length (filter (λ x, x = k) l).

(** Position of the first occurrence of [k] in [l]; the length of [l] when
    there is none. *)
Fixpoint first_index (k : string) (l : list string) : nat :=
  match l with
  | [] => 0
  | x :: l' => if decide (x = k) then 0 else S (first_index k l')
  end.

(** [a] is ranked before [b]: more occurrences, or as many and a first
    occurrence further to the left. *)
Definition ranks_before (l : list string) (a b : string) : Prop :=
  occurrences b l < occurrences a l ∨
  (occurrences a l = occurrences b l ∧ first_index a l < first_index b l).

(** [top] is the ranked keyword list of the keyword sequence [ks]: distinct
    keywords of [ks], all of them up to [n], each ranked before the next
    ones, and before every keyword of [ks] that is left out. *)
Definition top_ranked (n : nat) (ks top : list string) : Prop :=
  NoDup top ∧
  (∀ k, k ∈ top → k ∈ ks) ∧
  length top = min n (size (list_to_set ks : gset string)) ∧
  StronglySorted (ranks_before ks) top ∧
  (∀ k t, k ∈ ks → k ∉ top → t ∈ top → ranks_before ks t k).

(** The order of the sorted items: a larger count first, and for equal
    counts the order [P] the items came in. *)
Definition by_count_then (P : relation (string * nat))
    (x y : string * nat) : Prop :=
  y.2 < x.2 ∨ (x.2 = y.2 ∧ P x y).

(** The items of the counter of [ks], sorted. *)
Definition ranked (ks : list string) : Counter.t :=
  Counter.sorted_desc (Counter.of_list ks).

(** The key of [x] occurs in [ks] before the key of [y] does. *)
Definition earlier (ks : list string) (x y : string * nat) : Prop :=
  first_index x.1 ks < first_index y.1 ks.

(** The combined keyword sequence: the keywords of the titles, then those of
    the descriptions, both in store order. *)
Definition combined_keywords (db : Session) : list string :=
  concat (TaskSuggestionEngine.extract_keywords <$> omap title db) ++
  concat (TaskSuggestionEngine.extract_keywords <$> omap description db).

(** The ranked keywords of a call; none when the call returns early. *)
Definition ranked_list (db : Session) : list string :=
  default [] (TaskSuggestionEngine.rank_keywords db).1.

(** ** Generation *)

Definition titles_of (l : list TaskSuggestion) : list string :=
  suggested_title <$> l.

(** The set of produced titles holds the titles of the list, which are
    pairwise distinct. *)
Definition consistent (st : TaskSuggestionEngine.gen_state) : Prop :=
  NoDup (titles_of (TaskSuggestionEngine.suggestions st)) ∧
  ∀ t, t ∈ TaskSuggestionEngine.generated_titles st ↔
       t ∈ titles_of (TaskSuggestionEngine.suggestions st).

(** What one keyword may contribute: at most three titles, each a template
    filled with the formatted keyword. *)
Definition contribution (keyword : string) (block : list string) : Prop :=
  length block ≤ 3 ∧
  ∀ t, t ∈ block →
    ∃ template, template ∈ TaskSuggestionEngine.suggestion_templates ∧
      t = Py.format template (TaskSuggestionEngine.format_keyword keyword).

(** What the loop over the templates may do to the accumulators: append the
    titles [new], all fresh and pairwise distinct, each a template filled
    with [fk], without taking the counter beyond 3. *)
Definition loop_post (fk : string) (templates : list string)
    (st : TaskSuggestionEngine.gen_state) (made : nat)
    (res : TaskSuggestionEngine.gen_state * nat) : Prop :=
  ∃ new : list string,
    res.1 =
      {| TaskSuggestionEngine.suggestions :=
           TaskSuggestionEngine.suggestions st ++ (Build_TaskSuggestion <$> new);
         TaskSuggestionEngine.generated_titles :=
           TaskSuggestionEngine.generated_titles st ∪ list_to_set new |} ∧
    res.2 = made + length new ∧
    (made ≤ 3 → made + length new ≤ 3) ∧
    (∀ t, t ∈ new → ∃ template, template ∈ templates ∧
                      t = Py.format template fk) ∧
    NoDup new ∧
    (∀ t, t ∈ new → t ∉ TaskSuggestionEngine.generated_titles st).

Definition first_three (fk : string) : list string :=
  [ Py.format "Follow-up on {}" fk;
    Py.format "Finalize {}" fk;
    Py.format "Plan next steps for {}" fk ].

(** ** Keyword extraction in the words of the specification *)

(** The characters of a string. *)
Definition chars (s : string) : list ascii := list_ascii_of_string s.

(** The stop words as the specification lists them. *)
Definition stop_word_list : list string :=
  [ "the"; "and"; "for"; "with"; "are"; "was"; "were"; "been"; "have";
    "has"; "had"; "does"; "did"; "will"; "would"; "could"; "should" ].

(** The pieces of a string cut at every whitespace character; two
    whitespace characters in a row, or one at either end, leave an empty
    piece. *)
Fixpoint pieces (s : string) : list string :=
  match s with
  | EmptyString => [""]
  | String c s' =>
      if Py.is_space c then "" :: pieces s'
      else match pieces s' with
           | [] => [String c ""]
           | piece :: rest => String c piece :: rest
           end
  end.

(** The whitespace-separated tokens: the pieces that are not empty. *)
Definition tokens (s : string) : list string :=
  filter (λ piece, piece ≠ "") (pieces s).

(** The same on code points, for any whitespace class: the pieces of a
    string cut at every whitespace character, and the tokens. *)
Fixpoint pieces_at (space : N → bool) (s : list N) : list (list N) :=
  match s with
  | [] => [[]]
  | c :: s' =>
      if space c then [] :: pieces_at space s'
      else match pieces_at space s' with
           | [] => [[c]]
           | piece :: rest => (c :: piece) :: rest
           end
  end.

Definition tokens_at (space : N → bool) (s : list N) : list (list N) :=
  filter (λ piece, piece ≠ []) (pieces_at space s).

(** The keywords of a text in the words of the specification, for given
    character tables: lower the text, replace every character that is neither
    a word character nor whitespace by a space, take the whitespace-separated
    tokens, keep those of more than 2 characters that are none of the stop
    words, in their order. *)
Definition keywords_of (T : Unicode.tables) (text : list N) : list (list N) :=
  filter (λ token, 2 < length token ∧
                   token ∉ (Unicode.codes <$> stop_word_list))
    (tokens_at (Unicode.is_space T)
       ((λ c, if negb (Unicode.is_word T c) && negb (Unicode.is_space T c)
              then 32%N else c) <$> Unicode.lower T text)).

(** The tables on ASCII as the specification names them: the word
    characters are the letters, the digits and the underscore; whitespace is
    the space and the control characters 9 to 13 and 28 to 31; lowering takes
    each capital letter to the small letter at the same place of the
    alphabet. *)
Definition capital_letters : list N :=
  Unicode.codes "ABCDEFGHIJKLMNOPQRSTUVWXYZ".

Definition small_letters : list N :=
  Unicode.codes "abcdefghijklmnopqrstuvwxyz".

Fixpoint translate (from to : list N) (c : N) : N :=
  match from, to with
  | a :: from', b :: to' => if (c =? a)%N then b else translate from' to' c
  | _, _ => c
  end.

Definition ascii_tables : Unicode.tables :=
  {| Unicode.is_word c :=
       bool_decide (c ∈ capital_letters ++ small_letters ++
                        Unicode.codes "0123456789_");
     Unicode.is_space c :=
       bool_decide (c ∈ [9; 10; 11; 12; 13; 28; 29; 30; 31; 32]%N);
     Unicode.lower s := translate capital_letters small_letters <$> s |}.

(** A character, a text of the ASCII range. *)
Definition is_ascii (c : ascii) : bool := Py.code c <? 128.

Definition ascii_text (s : string) : Prop :=
  Forall (λ c, is_ascii c = true) (chars s).

(** Tables that are, on ASCII text, what [Py] says. *)
Definition ascii_faithful (T : Unicode.tables) : Prop :=
  (∀ c, is_ascii c = true →
        Unicode.is_word T (N_of_ascii c) = Py.is_word c) ∧
  (∀ c, is_ascii c = true →
        Unicode.is_space T (N_of_ascii c) = Py.is_space c) ∧
  (∀ s, ascii_text s →
        Unicode.lower T (Unicode.codes s) = Unicode.codes (Py.lower s)).

(** The identifiers the database stores: signed 64-bit integers. *)
Definition stored_integer (z : Z) : Prop :=
  (- 2 ^ 63 ≤ z < 2 ^ 63)%Z.

(** ** Example stores and states *)

Definition task (i : nat) (t d : option string) : Task :=
  {| id := i; title := t; description := d; status := PENDING |}.

Definition budget_store : Session :=
  [ task 1 (Some "Prepare budget report") None;
    task 2 (Some "Prepare budget report") None;
    task 3 (Some "Review budget numbers") None ].

Definition login_store : Session :=
  [ task 1 (Some "Fix login bug") (Some "Login page crashes");
    task 2 (Some "Write release notes") None;
    task 3 (Some "Review login flow") (Some "Check the release flow") ].

Definition untitled_store : Session :=
  [ task 1 None (Some "Budget report for the budget meeting");
    task 2 None (Some "Budget review") ].

Definition seen_state : TaskSuggestionEngine.gen_state :=
  {| TaskSuggestionEngine.suggestions :=
       [ {| suggested_title := "Finalize Budget" |} ];
     TaskSuggestionEngine.generated_titles := {[ "Finalize Budget" ]} |}.

(** ** Further notions *)

(** The characters a keyword is made of: lower-case letters, digits and the
    underscore. *)
Definition keyword_char (c : ascii) : bool :=
  Py.is_lower c || Py.is_digit c || (Py.code c =? 95).

(** The shape of a keyword: more than 2 characters, all of them keyword
    characters, and no stop word. *)
Definition keyword_shaped (k : string) : Prop :=
  2 < String.length k ∧
  (k ∉ TaskSuggestionEngine.stop_words) ∧
  Forall (λ c, keyword_char c = true) (chars k).

(** The titles the first three templates make of the ranked keywords, in
    ranked order. *)
Definition three_each (keywords : list string) : list string :=
  keywords ≫= λ keyword, first_three (Py.capitalize keyword).

(** The primary key: no two rows share an identifier. *)
Definition unique_ids (db : Session) : Prop := NoDup (id <$> db).

(** * Properties *)

Ltac by_computation := apply (bool_decide_unpack _); vm_compute; exact I.

Ltac each_char c := destruct c as [[] [] [] [] [] [] [] []]; vm_compute.

(** ** The model on examples *)

Example split_runs :
  Py.split "  plan   the report " = ["plan"; "the"; "report"].
Proof. reflexivity. Qed.

Example split_on_hyphens :
  Py.split_on "-" "a--b-" = ["a"; ""; "b"; ""].
Proof. reflexivity. Qed.

Example capitalize_lowers_rest : Py.capitalize "q3 REPORT" = "Q3 report".
Proof. reflexivity. Qed.

Example extract_plan_report :
  TaskSuggestionEngine.extract_keywords "Plan the Q3 Report!! (re-plan)" =
  ["plan"; "report"; "plan"].
Proof. by vm_compute. Qed.

Example most_common_ties :
  Counter.most_common 2 (Counter.of_list ["b"; "a"; "c"; "a"; "c"; "b"]) =
  [("b", 2); ("a", 2)].
Proof. reflexivity. Qed.

Example empty_store_fallback :
  get_smart_suggestions [] = (default_suggestions, [SelectTitle]).
Proof. reflexivity. Qed.

(** ** Facts on occurrences and first positions *)

Lemma occurrences_snoc k l x :
  occurrences k (l ++ [x]) =
  occurrences k l + (if decide (x = k) then 1 else 0).
Proof.
  unfold occurrences. rewrite filter_app, length_app. f_equal.
  rewrite filter_cons, filter_nil. by case_decide.
Qed.

Lemma first_index_lt k l : k ∈ l ↔ first_index k l < length l.
Proof.
  induction l as [|x l IH]; simpl.
  - split; [by intros ?%elem_of_nil|lia].
  - case_decide as Hx.
    + subst. split; [lia|left].
    + rewrite elem_of_cons, IH. split; [intros [?|?]; [congruence|lia]|].
      intros ?. right. lia.
Qed.

Lemma first_index_app_l k l l' :
  k ∈ l → first_index k (l ++ l') = first_index k l.
Proof.
  induction l as [|x l IH]; simpl; [by intros ?%elem_of_nil|].
  case_decide; [done|]. rewrite elem_of_cons. intros [?|?]; [congruence|].
  by rewrite IH.
Qed.

Lemma first_index_snoc_new k l :
  k ∉ l → first_index k (l ++ [k]) = length l.
Proof.
  induction l as [|x l IH]; simpl.
  - intros _. by case_decide.
  - rewrite not_elem_of_cons. intros [? ?]. case_decide; [congruence|].
    by rewrite IH.
Qed.

(** ** Sortedness along a map *)

Lemma StronglySorted_fmap_weaken {A B} (f : A → B)
    (R : relation A) (R' : relation B) (l : list A) :
  (∀ x y, x ∈ l → y ∈ l → R x y → R' (f x) (f y)) →
  StronglySorted R l → StronglySorted R' (f <$> l).
Proof.
  intros HR Hl. induction Hl as [|x l Hl IH Hx]; csimpl; constructor.
  - apply IH. intros y z Hy Hz. apply HR; by right.
  - apply Forall_fmap, Forall_forall. intros y Hy.
    rewrite Forall_forall in Hx. apply HR; [left|by right|by apply Hx].
Qed.

Lemma StronglySorted_weaken {A} (R R' : relation A) (l : list A) :
  (∀ x y, x ∈ l → y ∈ l → R x y → R' x y) →
  StronglySorted R l → StronglySorted R' l.
Proof.
  intros HR Hl. rewrite <-(list_fmap_id l).
  by apply StronglySorted_fmap_weaken with (R := R).
Qed.

(** ** Facts on the counter *)

Lemma incr_present k c : k ∈ c.*1 → (Counter.incr k c).*1 = c.*1.
Proof.
  induction c as [|[k' n] c IH]; csimpl; [by intros ?%elem_of_nil|].
  destruct (String.eqb_spec k k') as [->|Hne]; [done|].
  rewrite elem_of_cons. intros [?|?]; [congruence|].
  csimpl. by rewrite IH.
Qed.

Lemma incr_new k c : k ∉ c.*1 → Counter.incr k c = c ++ [(k, 1)].
Proof.
  induction c as [|[k' n] c IH]; csimpl; [done|].
  rewrite not_elem_of_cons. intros [? ?].
  destruct (String.eqb_spec k k') as [->|Hne]; [done|]. by rewrite IH.
Qed.

Lemma get_incr k' k c :
  Counter.get k' (Counter.incr k c) =
  if decide (k = k') then S (Counter.get k c) else Counter.get k' c.
Proof.
  induction c as [|[k0 n] c IH]; csimpl.
  - case_decide as Hk; subst.
    + by rewrite String.eqb_refl.
    + destruct (String.eqb_spec k' k); [congruence|done].
  - destruct (String.eqb_spec k k0) as [->|Hne]; csimpl.
    + case_decide as Hk; subst; [by rewrite String.eqb_refl|].
      destruct (String.eqb_spec k' k0); [congruence|done].
    + destruct (String.eqb_spec k' k0) as [->|Hne'].
      * case_decide; [congruence|done].
      * apply IH.
Qed.

Lemma get_item k n c : NoDup c.*1 → (k, n) ∈ c → Counter.get k c = n.
Proof.
  induction c as [|[k' n'] c IH]; csimpl; [by intros _ ?%elem_of_nil|].
  rewrite NoDup_cons, elem_of_cons. intros [Hk' Hnd] [Heq|Hin].
  - injection Heq as -> ->. by rewrite String.eqb_refl.
  - destruct (String.eqb_spec k k') as [->|Hne]; [|by apply IH].
    exfalso. apply Hk'. apply list_elem_of_fmap. by exists (k', n).
Qed.

Lemma of_list_snoc l k :
  Counter.of_list (l ++ [k]) = Counter.incr k (Counter.of_list l).
Proof. unfold Counter.of_list. by rewrite foldl_snoc. Qed.

Lemma of_list_keys_elem l k : k ∈ (Counter.of_list l).*1 ↔ k ∈ l.
Proof.
  induction l as [|x l IH] using rev_ind; [done|].
  rewrite of_list_snoc, elem_of_app, list_elem_of_singleton, <-IH.
  destruct (decide (x ∈ (Counter.of_list l).*1)) as [Hx|Hx].
  - rewrite incr_present by done. split; [by left|].
    by intros [?| ->].
  - rewrite incr_new, fmap_app, elem_of_app by done. csimpl.
    by rewrite list_elem_of_singleton.
Qed.

Lemma of_list_keys_NoDup l : NoDup (Counter.of_list l).*1.
Proof.
  induction l as [|x l IH] using rev_ind; [constructor|].
  rewrite of_list_snoc.
  destruct (decide (x ∈ (Counter.of_list l).*1)) as [Hx|Hx].
  - by rewrite incr_present.
  - rewrite incr_new, fmap_app by done. csimpl.
    apply NoDup_app. split_and!; [done| |apply NoDup_singleton].
    intros y Hy ->%list_elem_of_singleton. done.
Qed.

Lemma of_list_get l k : Counter.get k (Counter.of_list l) = occurrences k l.
Proof.
  induction l as [|x l IH] using rev_ind; [done|].
  rewrite of_list_snoc, get_incr, occurrences_snoc.
  case_decide as Hx; [subst; rewrite IH; lia|lia].
Qed.

(** The keys of the counter are in the order of their first occurrences. *)
Lemma of_list_keys_sorted l :
  StronglySorted (λ a b, first_index a l < first_index b l)
    (Counter.of_list l).*1.
Proof.
  induction l as [|x l IH] using rev_ind; [constructor|].
  assert (StronglySorted
            (λ a b, first_index a (l ++ [x]) < first_index b (l ++ [x]))
            (Counter.of_list l).*1) as Hold.
  { eapply StronglySorted_weaken; [|exact IH].
    intros a b Ha Hb Hab.
    apply (proj1 (of_list_keys_elem _ _)) in Ha, Hb.
    simpl in Hab |- *. rewrite !first_index_app_l by done. exact Hab. }
  rewrite of_list_snoc.
  destruct (decide (x ∈ (Counter.of_list l).*1)) as [Hx|Hx].
  - by rewrite incr_present.
  - rewrite incr_new, fmap_app by done. csimpl.
    apply StronglySorted_app. split_and!; [|done|repeat constructor].
    intros a b Ha ->%list_elem_of_singleton.
    rewrite of_list_keys_elem in Hx.
    apply (proj1 (of_list_keys_elem _ _)) in Ha.
    rewrite first_index_app_l, first_index_snoc_new by done.
    by apply first_index_lt.
Qed.

(** ** Facts on the stable descending sort *)

Lemma insert_desc_perm x l : Counter.insert_desc x l ≡ₚ x :: l.
Proof.
  induction l as [|y l IH]; simpl; [done|].
  destruct (x.2 <? y.2); [|done].
  rewrite IH. apply Permutation_swap.
Qed.

Lemma sorted_desc_perm c : Counter.sorted_desc c ≡ₚ c.
Proof.
  induction c as [|x c IH]; simpl; [done|].
  by rewrite insert_desc_perm, IH.
Qed.

Section stable_sort.

Variable P : relation (string * nat).

Lemma by_count_then_le x y : by_count_then P x y → y.2 ≤ x.2.
Proof. intros [?|[? _]]; lia. Qed.

Lemma insert_desc_sorted x l :
  Forall (P x) l →
  StronglySorted (by_count_then P) l →
  StronglySorted (by_count_then P) (Counter.insert_desc x l).
Proof.
  intros HP Hl. induction Hl as [|y l Hl IH Hy]; simpl.
  - repeat constructor.
  - apply Forall_cons in HP as [HPy HP].
    destruct (Nat.ltb_spec x.2 y.2) as [Hlt|Hge].
    + constructor; [by apply IH|].
      rewrite insert_desc_perm. constructor; [by left|done].
    + constructor; [by constructor|].
      assert (by_count_then P x y) as Hxy.
      { destruct (decide (y.2 < x.2)); [by left|right; split; [lia|done]]. }
      constructor; [done|].
      rewrite Forall_forall in Hy, HP |- *. intros z Hz.
      specialize (Hy z Hz). apply by_count_then_le in Hy.
      destruct (decide (z.2 < x.2)); [by left|].
      right. split; [lia|by apply HP].
Qed.

Lemma sorted_desc_sorted c :
  StronglySorted P c → StronglySorted (by_count_then P) (Counter.sorted_desc c).
Proof.
  induction 1 as [|x c Hc IH Hx]; simpl; [constructor|].
  apply insert_desc_sorted; [|done].
  by rewrite sorted_desc_perm.
Qed.
End stable_sort.

(** ** The engine in closed form *)

Lemma foldl_extend {A} (f : A → list string) acc l :
  foldl (λ acc x, acc ++ f x) acc l = acc ++ concat (f <$> l).
Proof.
  revert acc. induction l as [|x l IH]; intros acc; csimpl.
  - by rewrite app_nil_r.
  - by rewrite IH, app_assoc.
Qed.

Lemma most_common_nonempty ks :
  ks ≠ [] → Counter.most_common 5 (Counter.of_list ks) ≠ [].
Proof.
  intros Hks Hnil. destruct ks as [|k ks]; [done|].
  assert (k ∈ (Counter.sorted_desc (Counter.of_list (k :: ks))).*1) as Hk.
  { rewrite sorted_desc_perm. apply of_list_keys_elem. left. }
  unfold Counter.most_common in Hnil.
  destruct (Counter.sorted_desc (Counter.of_list (k :: ks)));
    [by apply elem_of_nil in Hk|done].
Qed.

Lemma rank_keywords_eq db :
  TaskSuggestionEngine.rank_keywords db =
  if bool_decide (omap title db = []) then (None, [SelectTitle])
  else if bool_decide (combined_keywords db = [])
  then (None, [SelectTitle; SelectDescription])
  else (Some (Counter.most_common 5
                (Counter.of_list (combined_keywords db))).*1,
        [SelectTitle; SelectDescription]).
Proof.
  unfold TaskSuggestionEngine.rank_keywords, mbind, DB_bind, query_titles.
  case_bool_decide as Ht; [done|].
  unfold query_descriptions. rewrite !foldl_extend. simpl.
  fold (combined_keywords db).
  case_bool_decide as Hk; [done|].
  rewrite bool_decide_eq_false_2 by by apply most_common_nonempty.
  done.
Qed.

Lemma generate_suggestions_eq db :
  TaskSuggestionEngine.generate_suggestions db =
  (match (TaskSuggestionEngine.rank_keywords db).1 with
   | None => []
   | Some top_keywords => TaskSuggestionEngine.synthesize top_keywords
   end,
   (TaskSuggestionEngine.rank_keywords db).2).
Proof.
  unfold TaskSuggestionEngine.generate_suggestions, mbind, DB_bind.
  destruct (TaskSuggestionEngine.rank_keywords db) as [[top|] log]; simpl;
    by rewrite app_nil_r.
Qed.

Lemma get_smart_suggestions_eq db :
  get_smart_suggestions db =
  (if bool_decide ((TaskSuggestionEngine.generate_suggestions db).1 = [])
   then default_suggestions
   else (TaskSuggestionEngine.generate_suggestions db).1,
   (TaskSuggestionEngine.generate_suggestions db).2).
Proof.
  unfold get_smart_suggestions, mbind, DB_bind.
  destruct (TaskSuggestionEngine.generate_suggestions db) as [r log]; simpl.
  case_bool_decide; simpl; by rewrite app_nil_r.
Qed.

Lemma StronglySorted_fmap_inv {A B} (f : A → B) (R : relation B) (l : list A) :
  StronglySorted R (f <$> l) → StronglySorted (λ x y, R (f x) (f y)) l.
Proof.
  induction l as [|x l IH]; csimpl; [constructor|].
  rewrite !StronglySorted_cons, Forall_fmap. intros [? ?]. split; auto.
Qed.

(** ** The ranked keyword list *)

Section ranking.

Variable ks : list string.

Lemma ranked_item k n : (k, n) ∈ ranked ks → n = occurrences k ks ∧ k ∈ ks.
Proof.
  unfold ranked. rewrite sorted_desc_perm. intros Hin. split.
  - rewrite <-of_list_get. symmetry. apply get_item; [|done].
    apply of_list_keys_NoDup.
  - apply of_list_keys_elem, list_elem_of_fmap. by exists (k, n).
Qed.

Lemma ranked_sorted : StronglySorted (by_count_then (earlier ks)) (ranked ks).
Proof.
  apply sorted_desc_sorted.
  apply (StronglySorted_fmap_inv fst
           (λ a b, first_index a ks < first_index b ks)).
  apply of_list_keys_sorted.
Qed.

Lemma ranked_before x y :
  x ∈ ranked ks → y ∈ ranked ks → by_count_then (earlier ks) x y →
  ranks_before ks x.1 y.1.
Proof.
  destruct x as [a n], y as [b m]. intros [-> _]%ranked_item [-> _]%ranked_item.
  unfold by_count_then, ranks_before, earlier. simpl. tauto.
Qed.

Lemma ranked_keys_NoDup : NoDup (ranked ks).*1.
Proof. unfold ranked. rewrite sorted_desc_perm. apply of_list_keys_NoDup. Qed.

Lemma ranked_keys_elem k : k ∈ (ranked ks).*1 ↔ k ∈ ks.
Proof. unfold ranked. rewrite sorted_desc_perm. apply of_list_keys_elem. Qed.

Lemma ranked_length : length (ranked ks) = size (list_to_set ks : gset string).
Proof.
  rewrite <-(length_fmap fst), <-(size_list_to_set (C := gset string))
    by apply ranked_keys_NoDup.
  f_equal. apply set_eq. intros k.
  by rewrite !elem_of_list_to_set, ranked_keys_elem.
Qed.

Lemma top_keywords_spec n :
  top_ranked n ks (Counter.most_common n (Counter.of_list ks)).*1.
Proof.
  unfold top_ranked, Counter.most_common. fold (ranked ks).
  pose proof ranked_sorted as Hs.
  rewrite <-(take_drop n (ranked ks)) in Hs.
  apply StronglySorted_app in Hs as (Hcross & Htake & _).
  split_and!.
  - rewrite fmap_take. eapply sublist_NoDup; [apply ranked_keys_NoDup|].
    apply sublist_take.
  - intros k Hk. apply ranked_keys_elem. rewrite fmap_take in Hk.
    by apply (subseteq_take n).
  - by rewrite length_fmap, length_take, ranked_length.
  - eapply StronglySorted_fmap_weaken; [|exact Htake].
    intros x y Hx Hy. apply ranked_before; by apply (subseteq_take n).
  - intros k t Hk Hnot Ht.
    apply ranked_keys_elem, list_elem_of_fmap in Hk as ([k' n'] & -> & Hk).
    apply list_elem_of_fmap in Ht as (y & -> & Ht).
    rewrite <-(take_drop n (ranked ks)), elem_of_app in Hk.
    destruct Hk as [Hk|Hk].
    { exfalso. apply Hnot, list_elem_of_fmap. by exists (k', n'). }
    apply (ranked_before y (k', n')).
    + by apply (subseteq_take n).
    + by apply (subseteq_drop n).
    + by apply Hcross.
Qed.
End ranking.

Lemma top_ranked_nil n : top_ranked n [] [].
Proof.
  split_and!; [constructor|done|by rewrite Nat.min_0_r|constructor|].
  by intros k t ?%elem_of_nil.
Qed.

(** C1. The ranked keyword list holds distinct keywords of the combined
    sequence (title keywords, then description keywords, in store order), as
    many as there are distinct ones up to 5, in descending order of
    occurrence count with ties in order of first occurrence, and every
    keyword left out ranks after every one kept. This holds whenever
    [generate_suggestions] ranks keywords, and of the (possibly empty) ranked
    list of every store whose rows all have a title. *)
Theorem ranked_keywords_top5 db :
  let ks := combined_keywords db in
  (∀ top log,
     TaskSuggestionEngine.rank_keywords db = (Some top, log) →
     top_ranked 5 ks top) ∧
  (Forall (λ row, is_Some (title row)) db →
   top_ranked 5 ks (ranked_list db)).
Proof.
  cbv zeta. split.
  - intros top log. rewrite rank_keywords_eq.
    repeat case_bool_decide; try done.
    intros [= <- _]. apply top_keywords_spec.
  - intros Hrows. unfold ranked_list. rewrite rank_keywords_eq.
    case_bool_decide as Htitles; simpl.
    + destruct db as [|row db]; [apply top_ranked_nil|].
      apply Forall_cons in Hrows as [[t Ht] _].
      simpl in Htitles. by rewrite Ht in Htitles.
    + case_bool_decide as Hks; simpl; [|apply top_keywords_spec].
      rewrite Hks. apply top_ranked_nil.
Qed.

(** ** The generation loops *)

Lemma titles_of_fmap l : titles_of (Build_TaskSuggestion <$> l) = l.
Proof.
  unfold titles_of. rewrite <-list_fmap_compose. apply list_fmap_id.
Qed.

Lemma titles_of_app l1 l2 :
  titles_of (l1 ++ l2) = titles_of l1 ++ titles_of l2.
Proof. apply fmap_app. Qed.

Lemma loop_post_stop fk templates st made :
  loop_post fk templates st made (st, made).
Proof.
  exists []. destruct st. csimpl. rewrite app_nil_r, (right_id_L ∅ (∪)).
  split_and!; [done|lia|lia| |constructor|]; by intros t Ht%elem_of_nil.
Qed.

Lemma template_loop_spec fk templates st made :
  loop_post fk templates st made
    (TaskSuggestionEngine.template_loop fk templates st made).
Proof.
  revert st made. induction templates as [|template templates IH];
    intros st made; cbn [TaskSuggestionEngine.template_loop];
    [apply loop_post_stop|].
  destruct (Nat.leb_spec 3 made) as [Hfull|Hroom]; [apply loop_post_stop|].
  case_decide as Hseen.
  { destruct (IH st made) as (new & ? & ? & ? & Hfrom & ? & ?).
    exists new. split_and!; try done.
    intros t Ht. destruct (Hfrom t Ht) as (tpl & ? & ?).
    exists tpl. split; [by right|done]. }
  set (title := Py.format template fk) in *.
  destruct (IH (TaskSuggestionEngine.emit title st) (S made))
    as (new & Hst & Hmade & Hle & Hfrom & Hnd & Hfresh).
  exists (title :: new). split_and!.
  - rewrite Hst. unfold TaskSuggestionEngine.emit. csimpl.
    rewrite <-app_assoc. f_equal. set_solver.
  - rewrite Hmade. simpl. lia.
  - intros _. simpl. lia.
  - intros t [->|Ht]%elem_of_cons.
    + exists template. split; [left|done].
    + destruct (Hfrom t Ht) as (tpl & ? & ?). exists tpl. split; [by right|done].
  - constructor; [|done]. intros Hin. apply (Hfresh _ Hin).
    unfold TaskSuggestionEngine.emit. simpl. set_solver.
  - intros t [->|Ht]%elem_of_cons; [done|].
    specialize (Hfresh t Ht). unfold TaskSuggestionEngine.emit in Hfresh.
    simpl in Hfresh. set_solver.
Qed.

Lemma keyword_step_spec st keyword :
  consistent st →
  ∃ block,
    TaskSuggestionEngine.suggestions
      (TaskSuggestionEngine.keyword_step st keyword) =
      TaskSuggestionEngine.suggestions st ++ (Build_TaskSuggestion <$> block) ∧
    contribution keyword block ∧
    consistent (TaskSuggestionEngine.keyword_step st keyword).
Proof.
  intros [Hnd Hset]. unfold TaskSuggestionEngine.keyword_step.
  destruct (template_loop_spec (TaskSuggestionEngine.format_keyword keyword)
              TaskSuggestionEngine.suggestion_templates st 0)
    as (new & -> & _ & Hle & Hfrom & Hnew & Hfresh).
  exists new. simpl. split_and!; [done|split; [lia|done]|].
  unfold consistent. simpl. rewrite !titles_of_app, titles_of_fmap. split.
  - apply NoDup_app. split_and!; [done| |done].
    intros t Ht Ht'. apply (Hfresh t Ht'). by apply Hset.
  - intros t. rewrite elem_of_union, elem_of_list_to_set, elem_of_app, Hset.
    done.
Qed.

Lemma keyword_loop_spec keywords st :
  consistent st →
  ∃ blocks,
    TaskSuggestionEngine.suggestions
      (foldl TaskSuggestionEngine.keyword_step st keywords) =
      TaskSuggestionEngine.suggestions st ++
        (Build_TaskSuggestion <$> concat blocks) ∧
    Forall2 contribution keywords blocks ∧
    consistent (foldl TaskSuggestionEngine.keyword_step st keywords).
Proof.
  revert st. induction keywords as [|k keywords IH]; intros st Hst; simpl.
  { exists []. csimpl. rewrite app_nil_r. split_and!; [done|constructor|done]. }
  destruct (keyword_step_spec st k Hst) as (block & Hk & Hblock & Hst').
  destruct (IH _ Hst') as (blocks & Hks & Hblocks & Hfinal).
  exists (block :: blocks). split_and!; [|by constructor|done].
  rewrite Hks, Hk. csimpl. by rewrite fmap_app, app_assoc.
Qed.

Lemma consistent_init :
  consistent {| TaskSuggestionEngine.suggestions := [];
                TaskSuggestionEngine.generated_titles := ∅ |}.
Proof. split; simpl; [constructor|]. intros t. set_solver. Qed.

Lemma synthesize_spec keywords :
  ∃ blocks,
    TaskSuggestionEngine.synthesize keywords =
      Build_TaskSuggestion <$> concat blocks ∧
    Forall2 contribution keywords blocks ∧
    NoDup (titles_of (TaskSuggestionEngine.synthesize keywords)).
Proof.
  unfold TaskSuggestionEngine.synthesize.
  destruct (keyword_loop_spec keywords _ consistent_init)
    as (blocks & Heq & Hblocks & [Hnd _]).
  exists blocks. by rewrite Heq in *.
Qed.

Lemma concat_length_bound (keywords : list string) blocks :
  Forall2 contribution keywords blocks →
  length (concat blocks) ≤ 3 * length keywords.
Proof.
  induction 1 as [|k b ks bs [Hb _] _ IH]; simpl; [lia|].
  rewrite length_app. lia.
Qed.

Lemma generate_suggestions_ranked db :
  (TaskSuggestionEngine.generate_suggestions db).1 =
  TaskSuggestionEngine.synthesize (ranked_list db).
Proof.
  rewrite generate_suggestions_eq. unfold ranked_list. simpl.
  by destruct (TaskSuggestionEngine.rank_keywords db).1.
Qed.

Lemma ranked_list_length db : length (ranked_list db) ≤ 5.
Proof.
  unfold ranked_list. rewrite rank_keywords_eq.
  repeat case_bool_decide; simpl; try lia.
  unfold Counter.most_common. rewrite length_fmap, length_take. lia.
Qed.

(** C3. The titles returned are the concatenation of one block per ranked
    keyword, in ranked order; a block holds at most 3 titles, each made from
    its keyword; so the result holds at most 3 times as many suggestions as
    there are ranked keywords, and at most 15. *)
Theorem suggestions_quota db :
  let result := (TaskSuggestionEngine.generate_suggestions db).1 in
  (∃ blocks,
     titles_of result = concat blocks ∧
     Forall2 contribution (ranked_list db) blocks) ∧
  length result ≤ 3 * length (ranked_list db) ∧
  length result ≤ 15.
Proof.
  cbv zeta. rewrite generate_suggestions_ranked.
  destruct (synthesize_spec (ranked_list db)) as (blocks & -> & Hblocks & _).
  pose proof (concat_length_bound _ _ Hblocks) as Hlen.
  pose proof (ranked_list_length db).
  rewrite titles_of_fmap, length_fmap.
  split_and!; [by exists blocks|done|lia].
Qed.

Example synthesize_collision :
  titles_of (TaskSuggestionEngine.synthesize ["budget"; "Budget"; "budget"]) =
  [ "Follow-up on Budget"; "Finalize Budget"; "Plan next steps for Budget";
    "Schedule meeting for Budget"; "Prepare report regarding Budget";
    "Start working on Budget" ].
Proof. by vm_compute. Qed.

Lemma loop_post_consistent fk templates st made res :
  consistent st → loop_post fk templates st made res → consistent res.1.
Proof.
  intros [Hnd Hset] (new & -> & _ & _ & _ & Hnew & Hfresh).
  unfold consistent. simpl. rewrite !titles_of_app, titles_of_fmap. split.
  - apply NoDup_app. split_and!; [done| |done].
    intros t Ht Ht'. apply (Hfresh t Ht'). by apply Hset.
  - intros t. rewrite elem_of_union, elem_of_list_to_set, elem_of_app, Hset.
    done.
Qed.

Lemma formatted_loop_consistent formatted st :
  consistent st →
  consistent
    (foldl (λ st fk,
              (TaskSuggestionEngine.template_loop fk
                 TaskSuggestionEngine.suggestion_templates st 0).1)
       st formatted).
Proof.
  revert st. induction formatted as [|fk formatted IH]; intros st Hst; [done|].
  simpl. apply IH.
  exact (loop_post_consistent fk TaskSuggestionEngine.suggestion_templates
           st 0 _ Hst (template_loop_spec _ _ _ _)).
Qed.

(** C4. The titles returned by one call are pairwise distinct. The
    generation loops return no title twice whatever strings the formatted
    keywords are, hence whatever the ranked keywords are, also when several
    of them are formatted alike and make the same titles; so no store makes
    [generate_suggestions] return a title twice. *)
Theorem suggestions_distinct :
  (∀ formatted_keywords,
     NoDup (suggested_title <$>
              TaskSuggestionEngine.suggestions
                (foldl (λ st formatted_keyword,
                          (TaskSuggestionEngine.template_loop formatted_keyword
                             TaskSuggestionEngine.suggestion_templates st 0).1)
                   {| TaskSuggestionEngine.suggestions := [];
                      TaskSuggestionEngine.generated_titles := ∅ |}
                   formatted_keywords))) ∧
  (∀ top_keywords,
     NoDup (suggested_title <$>
              TaskSuggestionEngine.synthesize top_keywords)) ∧
  (∀ db,
     NoDup (suggested_title <$>
              (TaskSuggestionEngine.generate_suggestions db).1)).
Proof.
  split_and!.
  - intros formatted.
    by destruct (formatted_loop_consistent formatted _ consistent_init).
  - intros top_keywords.
    by destruct (synthesize_spec top_keywords) as (_ & _ & _ & ?).
  - intros db. rewrite generate_suggestions_ranked.
    by destruct (synthesize_spec (ranked_list db)) as (_ & _ & _ & ?).
Qed.

(** C7. When the title made from the current template and formatted keyword
    is already produced (it is in [generated_titles], which on a consistent
    state means among the titles of [suggestions], whichever keyword they
    were made for), the loop over the templates goes on with the remaining
    templates from the same accumulators and the same counter: nothing is
    appended and nothing is counted. *)
Theorem duplicate_title_skipped fk template templates st made :
  (Py.format template fk ∈ TaskSuggestionEngine.generated_titles st →
   TaskSuggestionEngine.template_loop fk (template :: templates) st made =
   TaskSuggestionEngine.template_loop fk templates st made) ∧
  (consistent st →
   Py.format template fk ∈ titles_of (TaskSuggestionEngine.suggestions st) →
   TaskSuggestionEngine.template_loop fk (template :: templates) st made =
   TaskSuggestionEngine.template_loop fk templates st made).
Proof.
  assert (Py.format template fk ∈ TaskSuggestionEngine.generated_titles st →
          TaskSuggestionEngine.template_loop fk (template :: templates) st made =
          TaskSuggestionEngine.template_loop fk templates st made) as Hskip.
  { intros Hseen. cbn [TaskSuggestionEngine.template_loop].
    rewrite decide_True by done.
    destruct (Nat.leb_spec 3 made) as [Hfull|Hroom]; [|done].
    destruct templates as [|t templates]; [done|].
    cbn [TaskSuggestionEngine.template_loop].
    by rewrite (proj2 (Nat.leb_le 3 made)). }
  split; [done|]. intros [_ Hset] Hseen. by apply Hskip, Hset.
Qed.

(** ** The first ranked keyword *)

Lemma templates_distinct fk :
  NoDup ((λ template, Py.format template fk) <$>
           TaskSuggestionEngine.suggestion_templates).
Proof.
  unfold TaskSuggestionEngine.suggestion_templates. csimpl.
  repeat (apply NoDup_cons; split;
          [rewrite ?not_elem_of_cons; split_and?;
           first [discriminate|apply not_elem_of_nil]|]).
  apply NoDup_nil_2.
Qed.

Lemma template_loop_fresh fk template templates st made :
  made < 3 →
  Py.format template fk ∉ TaskSuggestionEngine.generated_titles st →
  TaskSuggestionEngine.template_loop fk (template :: templates) st made =
  TaskSuggestionEngine.template_loop fk templates
    (TaskSuggestionEngine.emit (Py.format template fk) st) (S made).
Proof.
  intros Hroom Hfresh. cbn [TaskSuggestionEngine.template_loop].
  destruct (Nat.leb_spec 3 made); [lia|]. by rewrite decide_False.
Qed.

Lemma template_loop_full fk templates st made :
  3 ≤ made →
  TaskSuggestionEngine.template_loop fk templates st made = (st, made).
Proof.
  intros Hfull. destruct templates; cbn [TaskSuggestionEngine.template_loop];
    [done|]. by rewrite (proj2 (Nat.leb_le 3 made)).
Qed.

Lemma first_keyword_step keyword :
  TaskSuggestionEngine.suggestions
    (TaskSuggestionEngine.keyword_step
       {| TaskSuggestionEngine.suggestions := [];
          TaskSuggestionEngine.generated_titles := ∅ |} keyword) =
  Build_TaskSuggestion <$>
    first_three (TaskSuggestionEngine.format_keyword keyword).
Proof.
  unfold TaskSuggestionEngine.keyword_step.
  generalize (TaskSuggestionEngine.format_keyword keyword). intros fk.
  unfold TaskSuggestionEngine.suggestion_templates.
  do 3 (rewrite template_loop_fresh;
        [|lia
         |unfold TaskSuggestionEngine.emit; simpl;
          rewrite ?elem_of_union, ?elem_of_singleton, elem_of_empty;
          intros H; decompose [or] H; done]).
  by rewrite template_loop_full.
Qed.

(** C9. No call returns one or two suggestions: a non-empty result starts
    with the first three templates filled with the first ranked keyword, the
    six templates filled with one keyword being pairwise distinct; so the
    endpoint always answers with at least 3 suggestions. *)
Theorem at_least_three db :
  let result := (TaskSuggestionEngine.generate_suggestions db).1 in
  (∀ fk, NoDup ((λ template, Py.format template fk) <$>
                  TaskSuggestionEngine.suggestion_templates)) ∧
  (result ≠ [] →
   3 ≤ length result ∧
   ∃ keyword keywords,
     (TaskSuggestionEngine.rank_keywords db).1 = Some (keyword :: keywords) ∧
     take 3 result =
       Build_TaskSuggestion <$>
         first_three (TaskSuggestionEngine.format_keyword keyword)) ∧
  3 ≤ length (get_smart_suggestions db).1.
Proof.
  cbv zeta.
  assert ((TaskSuggestionEngine.generate_suggestions db).1 ≠ [] →
          3 ≤ length (TaskSuggestionEngine.generate_suggestions db).1 ∧
          ∃ keyword keywords,
            (TaskSuggestionEngine.rank_keywords db).1 =
              Some (keyword :: keywords) ∧
            take 3 (TaskSuggestionEngine.generate_suggestions db).1 =
              Build_TaskSuggestion <$>
                first_three (TaskSuggestionEngine.format_keyword keyword))
    as Hthree.
  { rewrite generate_suggestions_eq. simpl.
    destruct (TaskSuggestionEngine.rank_keywords db).1 as [[|k ks]|];
      [done| |done].
    intros _. unfold TaskSuggestionEngine.synthesize. simpl.
    destruct (keyword_loop_spec ks
                (TaskSuggestionEngine.keyword_step
                   {| TaskSuggestionEngine.suggestions := [];
                      TaskSuggestionEngine.generated_titles := ∅ |} k))
      as (blocks & -> & _).
    { by destruct (keyword_step_spec _ k consistent_init) as (_ & _ & _ & ?). }
    rewrite first_keyword_step. split.
    - rewrite length_app. simpl. lia.
    - exists k, ks. split; [done|]. by rewrite take_app_length'. }
  split_and!; [apply templates_distinct|done|].
  rewrite get_smart_suggestions_eq. simpl.
  case_bool_decide as Hempty; [simpl; lia|]. by apply Hthree.
Qed.

(** ** Strings *)

Lemma append_cons c s1 s2 : String c s1 +:+ s2 = String c (s1 +:+ s2).
Proof. reflexivity. Qed.

Lemma append_nil_r s : s +:+ "" = s.
Proof. induction s as [|c s IH]; [done|]. by rewrite append_cons, IH. Qed.

Lemma append_assoc s1 s2 s3 : (s1 +:+ s2) +:+ s3 = s1 +:+ (s2 +:+ s3).
Proof. induction s1 as [|c s1 IH]; [done|]. by rewrite !append_cons, IH. Qed.

Lemma chars_map_chars f s : chars (Py.map_chars f s) = f <$> chars s.
Proof.
  unfold chars. induction s as [|c s IH]; csimpl; [done|by f_equal].
Qed.

Lemma pieces_nonempty s : pieces s ≠ [].
Proof. destruct s as [|c s]; simpl; [done|]. by repeat case_match. Qed.

Lemma split_from_pieces s cur :
  Py.split_from cur s =
  filter (λ piece, piece ≠ "")
    (match pieces s with
     | [] => [cur]
     | piece :: rest => (cur +:+ piece) :: rest
     end).
Proof.
  revert cur. induction s as [|c s IH]; intros cur; simpl.
  - rewrite append_nil_r, filter_cons, filter_nil.
    destruct (String.eqb_spec cur ""); by case_decide.
  - destruct (Py.is_space c); simpl.
    + rewrite append_nil_r, filter_cons, !IH.
      pose proof (pieces_nonempty s).
      destruct (pieces s) as [|p ps]; [done|]. simpl.
      destruct (String.eqb_spec cur ""); by case_decide.
    + rewrite IH. destruct (pieces s) as [|p ps].
      * done.
      * by rewrite append_assoc.
Qed.

Lemma split_tokens s : Py.split s = tokens s.
Proof.
  unfold Py.split, tokens. rewrite split_from_pieces.
  pose proof (pieces_nonempty s). by destruct (pieces s).
Qed.

Lemma stop_words_list : TaskSuggestionEngine.stop_words = list_to_set stop_word_list.
Proof. unfold TaskSuggestionEngine.stop_words, stop_word_list. simpl. set_solver. Qed.

(** ** Extraction on code points *)

Lemma pieces_at_nonempty space s : pieces_at space s ≠ [].
Proof. destruct s as [|c s]; simpl; [done|]. by repeat case_match. Qed.

Lemma unicode_split_from_pieces T s cur :
  Unicode.split_from T cur s =
  filter (λ piece, piece ≠ [])
    (match pieces_at (Unicode.is_space T) s with
     | [] => [cur]
     | piece :: rest => (cur ++ piece) :: rest
     end).
Proof.
  revert cur. induction s as [|c s IH]; intros cur;
    cbn [Unicode.split_from pieces_at].
  - rewrite (app_nil_r cur), filter_cons, filter_nil. by repeat case_decide.
  - destruct (Unicode.is_space T c).
    + rewrite (app_nil_r cur), filter_cons, !IH.
      pose proof (pieces_at_nonempty (Unicode.is_space T) s).
      destruct (pieces_at (Unicode.is_space T) s) as [|q qs]; [done|].
      rewrite (app_nil_l q). by repeat case_decide.
    + rewrite IH. destruct (pieces_at (Unicode.is_space T) s) as [|q qs].
      * done.
      * by rewrite <-(app_assoc cur).
Qed.

Lemma unicode_split_tokens T s :
  Unicode.split T s = tokens_at (Unicode.is_space T) s.
Proof.
  unfold Unicode.split, tokens_at. rewrite unicode_split_from_pieces.
  pose proof (pieces_at_nonempty (Unicode.is_space T) s).
  by destruct (pieces_at (Unicode.is_space T) s).
Qed.

Lemma unicode_stop_words :
  Unicode.stop_words = list_to_set (Unicode.codes <$> stop_word_list).
Proof. unfold Unicode.stop_words, stop_word_list. csimpl. set_solver. Qed.

Lemma unicode_extract_keywords_spec T text :
  Unicode.lower T [] = [] →
  Unicode.extract_keywords T text = keywords_of T text.
Proof.
  intros Hnil. unfold Unicode.extract_keywords, keywords_of.
  assert (∀ s,
    filter (λ word, 2 < length word ∧ word ∉ Unicode.stop_words)
      (Unicode.split T (Unicode.sub_special T s)) =
    filter (λ token, 2 < length token ∧
                     token ∉ (Unicode.codes <$> stop_word_list))
      (tokens_at (Unicode.is_space T)
         ((λ c, if negb (Unicode.is_word T c) && negb (Unicode.is_space T c)
                then 32%N else c) <$> s))) as Heq.
  { intros s. rewrite unicode_split_tokens.
    unfold Unicode.sub_special.
    erewrite (list_fmap_ext _ (λ c, if negb (Unicode.is_word T c) &&
                                       negb (Unicode.is_space T c)
                                    then 32%N else c));
      [|intros i c _; simpl;
        by destruct (Unicode.is_word T c), (Unicode.is_space T c)].
    apply list_filter_iff. intros word.
    by rewrite unicode_stop_words, elem_of_list_to_set. }
  case_decide as Htext; [|apply Heq].
  subst text. rewrite <-Heq, Hnil. reflexivity.
Qed.

(** ** The ASCII instance *)

Lemma codes_nil s : Unicode.codes s = [] ↔ s = "".
Proof. by destruct s. Qed.

Lemma codes_cons c s :
  Unicode.codes (String c s) = N_of_ascii c :: Unicode.codes s.
Proof. reflexivity. Qed.

Lemma codes_snoc s c :
  Unicode.codes (s +:+ String c "") = Unicode.codes s ++ [N_of_ascii c].
Proof.
  induction s as [|a s IH]; [done|].
  rewrite append_cons, !codes_cons, IH. done.
Qed.

Lemma codes_length s : length (Unicode.codes s) = String.length s.
Proof. induction s as [|a s IH]; [done|]. rewrite codes_cons. simpl. by f_equal. Qed.

Global Instance codes_inj : Inj (=) (=) Unicode.codes.
Proof.
  intros s1. induction s1 as [|a s1 IH]; intros [|b s2]; try done.
  rewrite !codes_cons. intros [= Hab Hs]. f_equal; [|by apply IH].
  by rewrite <-(ascii_N_embedding a), <-(ascii_N_embedding b), Hab.
Qed.

Lemma ascii_text_cons c s :
  ascii_text (String c s) ↔ is_ascii c = true ∧ ascii_text s.
Proof. unfold ascii_text, chars. simpl. by rewrite Forall_cons. Qed.

Lemma lower_char_ascii c : is_ascii c = true → is_ascii (Py.lower_char c) = true.
Proof. by each_char c. Qed.

Lemma lower_ascii s : ascii_text s → ascii_text (Py.lower s).
Proof.
  induction s as [|c s IH]; [done|]. unfold Py.lower. simpl.
  rewrite !ascii_text_cons. intros [? ?]. split; [by apply lower_char_ascii|].
  by apply IH.
Qed.

Lemma faithful_sub_special T s :
  ascii_faithful T → ascii_text s →
  Unicode.sub_special T (Unicode.codes s) = Unicode.codes (Py.sub_special s) ∧
  ascii_text (Py.sub_special s).
Proof.
  intros (Hword & Hspace & _). unfold Unicode.sub_special, Py.sub_special.
  induction s as [|c s IH]; [done|].
  rewrite ascii_text_cons. intros [Hc Hs]. destruct (IH Hs) as [IH1 IH2].
  cbn [Py.map_chars]. rewrite !codes_cons, fmap_cons, IH1, ascii_text_cons.
  rewrite Hword, Hspace by done.
  split; [|split; [|done]].
  - by destruct (Py.is_word c || Py.is_space c).
  - by destruct (Py.is_word c || Py.is_space c).
Qed.

Lemma faithful_split_from T cur s :
  ascii_faithful T → ascii_text s →
  Unicode.split_from T (Unicode.codes cur) (Unicode.codes s) =
  Unicode.codes <$> Py.split_from cur s.
Proof.
  intros (_ & Hspace & _). revert cur.
  induction s as [|c s IH]; intros cur.
  - intros _. simpl. destruct (String.eqb_spec cur "") as [->|Hne]; [done|].
    rewrite decide_False; [done|]. by rewrite codes_nil.
  - rewrite ascii_text_cons, codes_cons. intros [Hc Hs].
    cbn [Unicode.split_from Py.split_from]. rewrite Hspace by done.
    destruct (Py.is_space c).
    + destruct (String.eqb_spec cur "") as [->|Hne].
      * rewrite decide_True by done. by apply (IH "").
      * rewrite decide_False by by rewrite codes_nil.
        rewrite fmap_cons. f_equal. by apply (IH "").
    + rewrite <-codes_snoc. by apply IH.
Qed.

Lemma faithful_stop_words word :
  Unicode.codes word ∈ Unicode.stop_words ↔
  word ∈ TaskSuggestionEngine.stop_words.
Proof.
  rewrite unicode_stop_words, stop_words_list, !elem_of_list_to_set.
  by rewrite (list_elem_of_fmap_inj Unicode.codes).
Qed.

Lemma filter_fmap_iff {A B} (f : A → B) (P : B → Prop) (Q : A → Prop)
    `{!∀ y, Decision (P y)} `{!∀ x, Decision (Q x)} (l : list A) :
  (∀ x, P (f x) ↔ Q x) → filter P (f <$> l) = f <$> filter Q l.
Proof.
  intros HPQ. induction l as [|x l IH]; [done|].
  rewrite fmap_cons, !filter_cons, IH.
  destruct (decide (P (f x))) as [HP|HP], (decide (Q x)) as [HQ|HQ];
    try done; by apply HPQ in HP || apply HPQ in HQ.
Qed.

Lemma faithful_extract_keywords T text :
  ascii_faithful T → ascii_text text →
  Unicode.extract_keywords T (Unicode.codes text) =
  Unicode.codes <$> TaskSuggestionEngine.extract_keywords text.
Proof.
  intros HT Htext.
  unfold Unicode.extract_keywords, TaskSuggestionEngine.extract_keywords.
  destruct (String.eqb_spec text "") as [->|Hne]; [done|].
  rewrite decide_False by by rewrite codes_nil.
  destruct HT as (Hword & Hspace & Hlower). rewrite Hlower by done.
  destruct (faithful_sub_special T (Py.lower text)) as [-> Hclean];
    [done|by apply lower_ascii|].
  unfold Unicode.split, Py.split.
  change [] with (Unicode.codes "") at 1.
  rewrite faithful_split_from by done.
  apply filter_fmap_iff. intros word.
  by rewrite codes_length, faithful_stop_words.
Qed.

Lemma translate_lower_char c :
  is_ascii c = true →
  translate capital_letters small_letters (N_of_ascii c) =
  N_of_ascii (Py.lower_char c).
Proof. by each_char c. Qed.

Lemma ascii_tables_faithful : ascii_faithful ascii_tables.
Proof.
  split_and!.
  - intros c. by each_char c.
  - intros c. by each_char c.
  - intros s. unfold Py.lower. cbn [Unicode.lower ascii_tables].
    induction s as [|c s IH]; [done|].
    rewrite ascii_text_cons. intros [Hc Hs]. cbn [Py.map_chars].
    by rewrite !codes_cons, fmap_cons, translate_lower_char, IH.
Qed.

(** C5. The keywords extracted from a text are the whitespace-separated
    tokens of the lowered text, in which every character that is neither a
    word character nor whitespace was replaced by a space, that have more
    than 2 characters and are none of the 17 stop words, in their order and
    with their repetitions: for every text of code points, whatever
    Python's tables of word characters, of whitespace and of lowering are;
    and on ASCII text with the tables written out (letters, digits and
    underscore; the space and the control characters 9 to 13 and 28 to 31;
    A to Z lowered to a to z). A text of stop words and short words has no
    keyword. *)
Theorem extract_keywords_spec :
  (∀ (T : Unicode.tables) (text : list N),
     Unicode.lower T [] = [] →
     Unicode.extract_keywords T text = keywords_of T text) ∧
  (∀ text : string,
     ascii_text text →
     Unicode.codes <$> TaskSuggestionEngine.extract_keywords text =
     keywords_of ascii_tables (Unicode.codes text)) ∧
  length stop_word_list = 17 ∧
  NoDup stop_word_list ∧
  (∀ word, word ∈ TaskSuggestionEngine.stop_words ↔ word ∈ stop_word_list) ∧
  TaskSuggestionEngine.extract_keywords "the and has had a an it" = [].
Proof.
  split_and!.
  - apply unicode_extract_keywords_spec.
  - intros text Htext.
    rewrite <-(faithful_extract_keywords ascii_tables)
      by (done || apply ascii_tables_faithful).
    by apply unicode_extract_keywords_spec.
  - done.
  - by_computation.
  - intros word. by rewrite stop_words_list, elem_of_list_to_set.
  - by vm_compute.
Qed.

(** ** Keywords hold word characters only *)

Lemma pieces_chars s piece c :
  piece ∈ pieces s → c ∈ chars piece → c ∈ chars s ∧ Py.is_space c = false.
Proof.
  revert piece. induction s as [|a s IH]; intros piece; simpl.
  - intros ->%list_elem_of_singleton. by intros ?%elem_of_nil.
  - destruct (Py.is_space a) eqn:Hspace.
    + intros [->|Hin]%elem_of_cons; [by intros ?%elem_of_nil|].
      intros Hc. destruct (IH piece Hin Hc). split; [by right|done].
    + pose proof (pieces_nonempty s).
      destruct (pieces s) as [|p ps]; [done|].
      intros [->|Hin]%elem_of_cons.
      * unfold chars. simpl. intros [->|Hc]%elem_of_cons; [split; [left|done]|].
        destruct (IH p) as [? ?]; [left|done|]. split; [by right|done].
      * intros Hc. destruct (IH piece) as [? ?]; [by right|done|].
        split; [by right|done].
Qed.

Lemma sub_special_chars s c :
  c ∈ chars (Py.sub_special s) → Py.is_space c = false → Py.is_word c = true.
Proof.
  unfold Py.sub_special. rewrite chars_map_chars.
  intros (a & -> & _)%list_elem_of_fmap.
  destruct (Py.is_word a) eqn:Hw; simpl; [done|].
  destruct (Py.is_space a) eqn:Hs; [congruence|]. by vm_compute.
Qed.

Lemma extract_keywords_word_chars text keyword c :
  keyword ∈ TaskSuggestionEngine.extract_keywords text →
  c ∈ chars keyword → Py.is_word c = true.
Proof.
  unfold TaskSuggestionEngine.extract_keywords.
  destruct (String.eqb text ""); [by intros ?%elem_of_nil|].
  rewrite split_tokens. unfold tokens.
  intros [_ [_ Hin]%list_elem_of_filter]%list_elem_of_filter Hc.
  destruct (pieces_chars _ _ _ Hin Hc). by eapply sub_special_chars.
Qed.

Lemma split_on_absent sep s : sep ∉ chars s → Py.split_on sep s = [s].
Proof.
  unfold chars. induction s as [|a s IH]; simpl; [done|].
  rewrite not_elem_of_cons. intros [Hne Hs].
  destruct (Ascii.eqb_spec a sep); [congruence|]. by rewrite IH.
Qed.

Lemma format_keyword_plain keyword :
  "-"%char ∉ chars keyword →
  TaskSuggestionEngine.format_keyword keyword = Py.capitalize keyword.
Proof.
  intros Hk. unfold TaskSuggestionEngine.format_keyword.
  by rewrite split_on_absent.
Qed.

Lemma extract_keywords_no_hyphen text keyword :
  keyword ∈ TaskSuggestionEngine.extract_keywords text →
  "-"%char ∉ chars keyword.
Proof.
  intros Hk Hc. by pose proof (extract_keywords_word_chars _ _ _ Hk Hc).
Qed.

Lemma ranked_list_combined db keyword :
  keyword ∈ ranked_list db → keyword ∈ combined_keywords db.
Proof.
  unfold ranked_list. rewrite rank_keywords_eq.
  repeat case_bool_decide; simpl; try by intros ?%elem_of_nil.
  apply top_keywords_spec.
Qed.

Lemma elem_of_concat_fmap {A} (f : A → list string) (l : list A) k :
  k ∈ concat (f <$> l) → ∃ x, x ∈ l ∧ k ∈ f x.
Proof.
  induction l as [|x l IH]; csimpl; [by intros ?%elem_of_nil|].
  rewrite elem_of_app. intros [Hk|Hk].
  - exists x. split; [left|done].
  - destruct (IH Hk) as (y & ? & ?). exists y. split; [by right|done].
Qed.

Lemma combined_keywords_extracted db keyword :
  keyword ∈ combined_keywords db →
  ∃ text, keyword ∈ TaskSuggestionEngine.extract_keywords text.
Proof.
  unfold combined_keywords. rewrite elem_of_app.
  intros [Hin|Hin]; apply elem_of_concat_fmap in Hin as (text & _ & Hk);
    by exists text.
Qed.

(** C10. A keyword extracted from a text holds no hyphen, so splitting it at
    hyphens leaves it whole and formatting it capitalizes it as a whole; this
    holds of every ranked keyword, none of which is "project-plan". *)
Theorem keywords_have_no_hyphen :
  (∀ text keyword,
     keyword ∈ TaskSuggestionEngine.extract_keywords text →
     ("-"%char ∉ chars keyword) ∧
     Py.split_on "-" keyword = [keyword] ∧
     TaskSuggestionEngine.format_keyword keyword = Py.capitalize keyword) ∧
  (∀ db keyword,
     keyword ∈ ranked_list db →
     TaskSuggestionEngine.format_keyword keyword = Py.capitalize keyword ∧
     keyword ≠ "project-plan").
Proof.
  split.
  - intros text keyword Hk.
    pose proof (extract_keywords_no_hyphen _ _ Hk) as Hno.
    split_and!; [done|by apply split_on_absent|by apply format_keyword_plain].
  - intros db keyword Hk.
    apply ranked_list_combined, combined_keywords_extracted in Hk as [text Hk].
    pose proof (extract_keywords_no_hyphen _ _ Hk) as Hno.
    split; [by apply format_keyword_plain|].
    intros ->. apply Hno. by apply (bool_decide_unpack _); vm_compute.
Qed.

(** C2. With the titles "Prepare budget report", "Prepare budget report",
    "Review budget numbers" and no description, "budget" is counted 3 times
    and ranked first, the result starts with "Follow-up on Budget",
    "Finalize Budget", "Plan next steps for Budget", and no later suggestion
    is a template filled with "Budget". *)
Theorem budget_scenario db :
  omap title db =
    ["Prepare budget report"; "Prepare budget report"; "Review budget numbers"] →
  omap description db = [] →
  let result := (TaskSuggestionEngine.generate_suggestions db).1 in
  Counter.most_common 5 (Counter.of_list (combined_keywords db)) =
    [("budget", 3); ("prepare", 2); ("report", 2); ("review", 1);
     ("numbers", 1)] ∧
  (TaskSuggestionEngine.rank_keywords db).1 =
    Some ["budget"; "prepare"; "report"; "review"; "numbers"] ∧
  TaskSuggestionEngine.format_keyword "budget" = "Budget" ∧
  titles_of (take 3 result) =
    ["Follow-up on Budget"; "Finalize Budget"; "Plan next steps for Budget"] ∧
  Forall (λ later,
            Forall (λ template, later ≠ Py.format template "Budget")
              TaskSuggestionEngine.suggestion_templates)
    (titles_of (drop 3 result)).
Proof.
  intros Htitles Hdescriptions. cbv zeta.
  rewrite generate_suggestions_eq, rank_keywords_eq.
  unfold combined_keywords. rewrite Htitles, Hdescriptions.
  split_and!; [by vm_compute..|by_computation].
Qed.

(** C6. With no title in the store the call returns the empty list after
    the query for the titles, without a query for the descriptions. *)
Theorem no_titles_no_suggestions db :
  omap title db = [] →
  TaskSuggestionEngine.generate_suggestions db = ([], [SelectTitle]).
Proof.
  intros Htitles. rewrite generate_suggestions_eq, rank_keywords_eq.
  by rewrite Htitles.
Qed.

(** C8. "project-plan" is split into "project" and "plan" and formatted as
    "Project Plan"; the template "Finalize {}" filled with it reads
    "Finalize Project Plan". *)
Theorem format_project_plan :
  Py.split_on "-" "project-plan" = ["project"; "plan"] ∧
  TaskSuggestionEngine.format_keyword "project-plan" = "Project Plan" ∧
  "Finalize {}" ∈ TaskSuggestionEngine.suggestion_templates ∧
  Py.format "Finalize {}"
    (TaskSuggestionEngine.format_keyword "project-plan") =
    "Finalize Project Plan".
Proof. split_and!; [by vm_compute..|by_computation|by vm_compute]. Qed.

(** ** Instances *)

Lemma ranked_keywords_top5_witness :
  top_ranked 5 (combined_keywords login_store)
    ["login"; "release"; "flow"; "fix"; "bug"].
Proof.
  apply (proj1 (ranked_keywords_top5 login_store)
           ["login"; "release"; "flow"; "fix"; "bug"]
           [SelectTitle; SelectDescription]).
  vm_compute. reflexivity.
Defined.

Lemma budget_scenario_witness :
  titles_of (take 3 (TaskSuggestionEngine.generate_suggestions budget_store).1) =
  ["Follow-up on Budget"; "Finalize Budget"; "Plan next steps for Budget"].
Proof.
  apply (budget_scenario budget_store); vm_compute; reflexivity.
Defined.

Lemma no_titles_no_suggestions_witness :
  omap description untitled_store =
    ["Budget report for the budget meeting"; "Budget review"] ∧
  TaskSuggestionEngine.generate_suggestions untitled_store = ([], [SelectTitle]).
Proof.
  split; [reflexivity|].
  apply (no_titles_no_suggestions untitled_store). reflexivity.
Defined.

Lemma duplicate_title_skipped_witness :
  TaskSuggestionEngine.template_loop "Budget"
    ["Finalize {}"; "Plan next steps for {}"] seen_state 1 =
  TaskSuggestionEngine.template_loop "Budget"
    ["Plan next steps for {}"] seen_state 1.
Proof.
  apply (proj1 (duplicate_title_skipped "Budget" "Finalize {}"
                  ["Plan next steps for {}"] seen_state 1)).
  apply (bool_decide_unpack _). vm_compute. exact I.
Defined.

Lemma at_least_three_witness :
  3 ≤ length (TaskSuggestionEngine.generate_suggestions login_store).1.
Proof.
  pose proof (at_least_three login_store) as H. cbv zeta in H.
  destruct H as (_ & H & _). apply H. vm_compute. discriminate.
Defined.

Lemma keywords_have_no_hyphen_witness :
  TaskSuggestionEngine.extract_keywords "Draft the project-plan" =
    ["draft"; "project"; "plan"] ∧
  TaskSuggestionEngine.format_keyword "project" = Py.capitalize "project".
Proof.
  split; [vm_compute; reflexivity|].
  apply (proj1 keywords_have_no_hyphen "Draft the project-plan" "project").
  apply (bool_decide_unpack _). vm_compute. exact I.
Defined.

(** * Further properties *)

(** ** Character tables *)

Lemma lower_char_not_upper c : Py.is_upper (Py.lower_char c) = false.
Proof. by each_char c. Qed.

Lemma lower_char_fixed c : Py.is_upper c = false → Py.lower_char c = c.
Proof. unfold Py.lower_char. by intros ->. Qed.

Lemma lower_upper_char c :
  Py.is_upper c = false → Py.lower_char (Py.upper_char c) = c.
Proof. by each_char c. Qed.

Lemma keyword_char_spec c :
  keyword_char c = true ↔ Py.is_word c = true ∧ Py.is_upper c = false.
Proof. each_char c; split; (done || by intros []). Qed.

Lemma keyword_char_not_space c : keyword_char c = true → Py.is_space c = false.
Proof. by each_char c. Qed.

Lemma not_word_not_upper c : Py.is_word c = false → Py.is_upper c = false.
Proof. by each_char c. Qed.

Lemma upper_char_hyphen c : Py.upper_char c = "-"%char → c = "-"%char.
Proof. by each_char c. Qed.

Lemma lower_char_hyphen c : Py.lower_char c = "-"%char → c = "-"%char.
Proof. by each_char c. Qed.

(** ** Strings, continued *)

Lemma chars_append s1 s2 : chars (s1 +:+ s2) = chars s1 ++ chars s2.
Proof.
  unfold chars. induction s1 as [|c s1 IH]; [done|].
  rewrite append_cons. simpl. by f_equal.
Qed.

Lemma length_append s1 s2 :
  String.length (s1 +:+ s2) = String.length s1 + String.length s2.
Proof.
  induction s1 as [|c s1 IH]; [done|]. rewrite append_cons. simpl. by f_equal.
Qed.

Lemma length_chars s : length (chars s) = String.length s.
Proof. unfold chars. induction s as [|c s IH]; simpl; [done|by f_equal]. Qed.

Lemma map_chars_append f s1 s2 :
  Py.map_chars f (s1 +:+ s2) = Py.map_chars f s1 +:+ Py.map_chars f s2.
Proof.
  induction s1 as [|c s1 IH]; [done|].
  rewrite append_cons. simpl. rewrite append_cons. by f_equal.
Qed.

Lemma map_chars_fixed f s :
  Forall (λ c, f c = c) (chars s) → Py.map_chars f s = s.
Proof.
  unfold chars. induction s as [|c s IH]; simpl; [done|].
  intros [Hc Hs]%Forall_cons. by rewrite Hc, IH.
Qed.

Lemma map_chars_nil f s : Py.map_chars f s = "" ↔ s = "".
Proof. by destruct s. Qed.

Lemma lower_idem s : Py.lower (Py.lower s) = Py.lower s.
Proof.
  unfold Py.lower. apply map_chars_fixed. rewrite chars_map_chars.
  apply Forall_fmap, Forall_forall. intros c _. simpl.
  apply lower_char_fixed, lower_char_not_upper.
Qed.

(** ** Keyword extraction, continued *)

Lemma extract_keywords_tokens text :
  TaskSuggestionEngine.extract_keywords text =
  filter (λ word, 2 < String.length word ∧
                  word ∉ TaskSuggestionEngine.stop_words)
    (tokens (Py.sub_special (Py.lower text))).
Proof.
  unfold TaskSuggestionEngine.extract_keywords.
  destruct (String.eqb_spec text "") as [->|_]; [by vm_compute|].
  by rewrite split_tokens.
Qed.

Lemma cleaned_chars text c :
  c ∈ chars (Py.sub_special (Py.lower text)) →
  Py.is_space c = false → keyword_char c = true.
Proof.
  unfold Py.sub_special, Py.lower. rewrite !chars_map_chars.
  intros (a & -> & (b & -> & _)%list_elem_of_fmap)%list_elem_of_fmap.
  pose proof (lower_char_not_upper b) as Hup.
  destruct (Py.is_word (Py.lower_char b)) eqn:Hw; simpl.
  - intros _. by apply keyword_char_spec.
  - destruct (Py.is_space (Py.lower_char b)) eqn:Hs; [congruence|].
    by vm_compute.
Qed.

Lemma extract_keywords_shaped text keyword :
  keyword ∈ TaskSuggestionEngine.extract_keywords text →
  keyword_shaped keyword.
Proof.
  rewrite extract_keywords_tokens. unfold tokens.
  intros [[Hlen Hstop] [_ Hin]%list_elem_of_filter]%list_elem_of_filter.
  split_and!; [done..|]. apply Forall_forall. intros c Hc.
  destruct (pieces_chars _ _ _ Hin Hc). by eapply cleaned_chars.
Qed.

(** X1. Every keyword extracted from an ASCII text has more than 2
    characters, is no stop word and is made of lower-case letters, digits and
    underscores only; so it holds no upper-case letter, no whitespace and no
    punctuation. *)
Theorem extracted_keyword_shape text :
  ascii_text text →
  Forall (λ keyword,
            keyword_shaped keyword ∧
            Forall (λ c, Py.is_upper c = false ∧ Py.is_space c = false ∧
                         Py.is_word c = true) (chars keyword))
    (TaskSuggestionEngine.extract_keywords text).
Proof.
  intros _. apply Forall_forall. intros keyword Hk.
  pose proof (extract_keywords_shaped _ _ Hk) as Hshape.
  split; [done|]. destruct Hshape as (_ & _ & Hchars).
  eapply Forall_impl; [exact Hchars|]. intros c Hc. simpl in Hc.
  pose proof (keyword_char_not_space c Hc).
  apply keyword_char_spec in Hc as [? ?]. done.
Qed.

(** X2. Extraction does not see the case of letters: two texts that are
    equal once lowered have the same keywords, and so have a text and its
    lowered form. *)
Theorem extract_keywords_case text1 text2 :
  (Py.lower text1 = Py.lower text2 →
   TaskSuggestionEngine.extract_keywords text1 =
   TaskSuggestionEngine.extract_keywords text2) ∧
  TaskSuggestionEngine.extract_keywords (Py.lower text1) =
  TaskSuggestionEngine.extract_keywords text1.
Proof.
  rewrite !extract_keywords_tokens, lower_idem. split; [|done].
  by intros ->.
Qed.

Lemma pieces_app_space a c b :
  Py.is_space c = true → pieces (a +:+ String c b) = pieces a ++ pieces b.
Proof.
  intros Hc. induction a as [|x a IH].
  - simpl. by rewrite Hc.
  - rewrite append_cons. simpl. rewrite IH.
    destruct (Py.is_space x); [done|].
    pose proof (pieces_nonempty a). by destruct (pieces a).
Qed.

Lemma cleaned_separator c :
  Py.is_word c = false →
  ∃ c', Py.is_space c' = true ∧
    ∀ a b, Py.sub_special (Py.lower (a +:+ String c b)) =
           Py.sub_special (Py.lower a) +:+
             String c' (Py.sub_special (Py.lower b)).
Proof.
  intros Hc.
  exists (if Py.is_space c then c else " "%char). split.
  - by destruct (Py.is_space c) eqn:Hs.
  - intros a b. unfold Py.sub_special, Py.lower.
    rewrite !map_chars_append. simpl.
    by rewrite (lower_char_fixed c (not_word_not_upper c Hc)), Hc.
Qed.

Lemma extract_keywords_app_sep a c b :
  Py.is_word c = false →
  TaskSuggestionEngine.extract_keywords (a +:+ String c b) =
  TaskSuggestionEngine.extract_keywords a ++
  TaskSuggestionEngine.extract_keywords b.
Proof.
  intros Hc. destruct (cleaned_separator c Hc) as (c' & Hc' & Heq).
  rewrite !extract_keywords_tokens, Heq. unfold tokens.
  by rewrite pieces_app_space, !filter_app.
Qed.

(** X3. In ASCII text a character that is no letter, digit or underscore
    separates keywords: the keywords of two texts put together around it, or
    around a run of such characters, are the keywords of the first followed
    by those of the second. *)
Theorem extract_keywords_separator a sep b :
  ascii_text a → ascii_text sep → ascii_text b →
  sep ≠ "" →
  Forall (λ c, Py.is_word c = false) (chars sep) →
  TaskSuggestionEngine.extract_keywords (a +:+ sep +:+ b) =
  TaskSuggestionEngine.extract_keywords a ++
  TaskSuggestionEngine.extract_keywords b.
Proof.
  intros _ _ _ Hne Hsep. destruct sep as [|c sep]; [done|clear Hne].
  apply Forall_cons in Hsep as [Hc Hsep]. rewrite append_cons.
  rewrite extract_keywords_app_sep by done. f_equal.
  induction sep as [|c' sep IH]; [done|].
  apply Forall_cons in Hsep as [Hc' Hsep]. rewrite append_cons.
  change (String c' (sep +:+ b)) with ("" +:+ String c' (sep +:+ b)).
  rewrite extract_keywords_app_sep by done. by apply IH.
Qed.

Lemma pieces_solid s :
  Forall (λ c, Py.is_space c = false) (chars s) → pieces s = [s].
Proof.
  unfold chars. induction s as [|c s IH]; simpl; [done|].
  intros [-> Hs]%Forall_cons. by rewrite IH.
Qed.

Lemma extract_keyword_self keyword :
  keyword_shaped keyword →
  TaskSuggestionEngine.extract_keywords keyword = [keyword].
Proof.
  intros (Hlen & Hstop & Hchars). rewrite extract_keywords_tokens.
  assert (Py.lower keyword = keyword) as ->.
  { apply map_chars_fixed. eapply Forall_impl; [exact Hchars|].
    intros c Hc. simpl in Hc. by apply lower_char_fixed, keyword_char_spec. }
  assert (Py.sub_special keyword = keyword) as ->.
  { apply map_chars_fixed. eapply Forall_impl; [exact Hchars|].
    intros c Hc. simpl in Hc. apply keyword_char_spec in Hc as [-> _]. done. }
  unfold tokens. rewrite pieces_solid.
  - rewrite filter_cons_True, filter_nil, filter_cons_True, filter_nil; try done.
    intros ->. simpl in Hlen. lia.
  - eapply Forall_impl; [exact Hchars|]. intros c Hc. simpl in Hc.
    by apply keyword_char_not_space.
Qed.

Lemma extract_joined keywords :
  Forall keyword_shaped keywords →
  TaskSuggestionEngine.extract_keywords (Py.join " " keywords) = keywords.
Proof.
  induction 1 as [|k ks Hk Hks IH]; [by vm_compute|].
  destruct ks as [|k' ks]; [by apply extract_keyword_self|].
  change (Py.join " " (k :: k' :: ks))
    with (k +:+ String " " (Py.join " " (k' :: ks))).
  rewrite extract_keywords_app_sep by done.
  by rewrite extract_keyword_self, IH.
Qed.

(** X4. Extraction is a projection: the keywords of a text, joined by
    single spaces, are a text with exactly these keywords. *)
Theorem extract_keywords_round_trip text :
  TaskSuggestionEngine.extract_keywords
    (Py.join " " (TaskSuggestionEngine.extract_keywords text)) =
  TaskSuggestionEngine.extract_keywords text.
Proof.
  apply extract_joined, Forall_forall. intros keyword.
  apply extract_keywords_shaped.
Qed.

(** ** Generation, continued *)

Lemma format_inj template1 template2 fk1 fk2 :
  template1 ∈ TaskSuggestionEngine.suggestion_templates →
  template2 ∈ TaskSuggestionEngine.suggestion_templates →
  Py.format template1 fk1 = Py.format template2 fk2 →
  template1 = template2 ∧ fk1 = fk2.
Proof.
  unfold TaskSuggestionEngine.suggestion_templates.
  rewrite !elem_of_cons, !elem_of_nil. intros H1 H2.
  destruct H1 as [->|[->|[->|[->|[->|[->|[]]]]]]];
    destruct H2 as [->|[->|[->|[->|[->|[->|[]]]]]]];
    intros H; try discriminate H;
    (split; [done|]); injection H as H; by rewrite !append_nil_r in H.
Qed.

Lemma first_three_from fk t :
  t ∈ first_three fk →
  ∃ template, template ∈ TaskSuggestionEngine.suggestion_templates ∧
    t = Py.format template fk.
Proof.
  unfold first_three, TaskSuggestionEngine.suggestion_templates.
  rewrite !elem_of_cons, elem_of_nil. intros [->|[->|[->|[]]]];
    eexists; (split; [|done]); rewrite !elem_of_cons; auto 6.
Qed.

Lemma first_three_disjoint fk1 fk2 t :
  fk1 ≠ fk2 → t ∈ first_three fk1 → t ∉ first_three fk2.
Proof.
  intros Hne (tpl1 & H1 & ->)%first_three_from (tpl2 & H2 & Heq)%first_three_from.
  by destruct (format_inj _ _ _ _ H1 H2 Heq).
Qed.

Lemma keyword_step_exact st keyword :
  consistent st →
  (∀ t, t ∈ titles_of (TaskSuggestionEngine.suggestions st) →
        t ∉ first_three (TaskSuggestionEngine.format_keyword keyword)) →
  TaskSuggestionEngine.suggestions
    (TaskSuggestionEngine.keyword_step st keyword) =
  TaskSuggestionEngine.suggestions st ++
    (Build_TaskSuggestion <$>
       first_three (TaskSuggestionEngine.format_keyword keyword)).
Proof.
  intros [_ Hset] Hfresh. unfold TaskSuggestionEngine.keyword_step.
  revert Hfresh. generalize (TaskSuggestionEngine.format_keyword keyword).
  intros fk Hfresh.
  assert (∀ t, t ∈ first_three fk →
               t ∉ TaskSuggestionEngine.generated_titles st) as Hnew.
  { intros t Ht Hin. apply Hset in Hin. by apply (Hfresh t). }
  unfold TaskSuggestionEngine.suggestion_templates.
  do 3 (rewrite template_loop_fresh;
        [|lia
         |unfold TaskSuggestionEngine.emit; simpl;
          rewrite ?elem_of_union, ?elem_of_singleton;
          intros H; decompose [or] H; try done;
          match goal with
          | Hin : _ ∈ TaskSuggestionEngine.generated_titles st |- _ =>
              apply (Hnew _) in Hin; [done|];
              unfold first_three; rewrite !elem_of_cons; auto
          end]).
  rewrite template_loop_full by lia.
  unfold TaskSuggestionEngine.emit, first_three. csimpl.
  by rewrite <-!app_assoc.
Qed.

Lemma keyword_loop_exact keywords st :
  consistent st →
  NoDup (TaskSuggestionEngine.format_keyword <$> keywords) →
  (∀ t k, t ∈ titles_of (TaskSuggestionEngine.suggestions st) →
          k ∈ keywords →
          t ∉ first_three (TaskSuggestionEngine.format_keyword k)) →
  titles_of (TaskSuggestionEngine.suggestions
               (foldl TaskSuggestionEngine.keyword_step st keywords)) =
  titles_of (TaskSuggestionEngine.suggestions st) ++
    (keywords ≫= λ k, first_three (TaskSuggestionEngine.format_keyword k)).
Proof.
  revert st. induction keywords as [|k keywords IH]; intros st Hst Hnd Hfresh.
  { csimpl. by rewrite app_nil_r. }
  csimpl in Hnd. apply NoDup_cons in Hnd as [Hk Hnd]. csimpl.
  assert (TaskSuggestionEngine.suggestions
            (TaskSuggestionEngine.keyword_step st k) =
          TaskSuggestionEngine.suggestions st ++
            (Build_TaskSuggestion <$>
               first_three (TaskSuggestionEngine.format_keyword k))) as Hstep.
  { apply keyword_step_exact; [done|]. intros t Ht. apply Hfresh; [done|left]. }
  destruct (keyword_step_spec st k Hst) as (_ & _ & _ & Hst').
  rewrite IH; [|done..|].
  - by rewrite Hstep, titles_of_app, titles_of_fmap, <-app_assoc.
  - intros t k' Ht Hk'. rewrite Hstep, titles_of_app, titles_of_fmap in Ht.
    apply elem_of_app in Ht as [Ht|Ht].
    + apply Hfresh; [done|by right].
    + eapply first_three_disjoint; [|done]. intros Heq. apply Hk.
      rewrite Heq. apply list_elem_of_fmap. by exists k'.
Qed.

Lemma lower_capitalize keyword :
  Forall (λ c, keyword_char c = true) (chars keyword) →
  Py.lower (Py.capitalize keyword) = keyword.
Proof.
  unfold chars. destruct keyword as [|c s]; [done|].
  intros [Hc Hs]%Forall_cons.
  change (Py.lower (Py.capitalize (String c s)))
    with (String (Py.lower_char (Py.upper_char c)) (Py.lower (Py.lower s))).
  rewrite lower_idem, lower_upper_char by by apply keyword_char_spec.
  f_equal. apply map_chars_fixed. eapply Forall_impl; [exact Hs|].
  intros a Ha. simpl in Ha. by apply lower_char_fixed, keyword_char_spec.
Qed.

Lemma keyword_shaped_format keyword :
  keyword_shaped keyword →
  TaskSuggestionEngine.format_keyword keyword = Py.capitalize keyword.
Proof.
  intros (_ & _ & Hchars). apply format_keyword_plain.
  intros Hin. rewrite Forall_forall in Hchars. by apply Hchars in Hin.
Qed.

Lemma ranked_list_shaped db : Forall keyword_shaped (ranked_list db).
Proof.
  apply Forall_forall. intros k Hk.
  apply ranked_list_combined, combined_keywords_extracted in Hk as [text Hk].
  by eapply extract_keywords_shaped.
Qed.

Lemma ranked_list_NoDup db : NoDup (ranked_list db).
Proof.
  unfold ranked_list. rewrite rank_keywords_eq.
  repeat case_bool_decide; simpl; try constructor.
  apply top_keywords_spec.
Qed.

Lemma lower_capitalize_fmap keywords :
  Forall keyword_shaped keywords →
  Py.lower <$> (Py.capitalize <$> keywords) = keywords.
Proof.
  induction 1 as [|k ks (_ & _ & Hk) _ IH]; csimpl; [done|].
  by rewrite lower_capitalize, IH.
Qed.

Lemma format_keyword_fmap keywords :
  Forall keyword_shaped keywords →
  TaskSuggestionEngine.format_keyword <$> keywords = Py.capitalize <$> keywords.
Proof.
  induction 1 as [|k ks Hk _ IH]; csimpl; [done|].
  by rewrite keyword_shaped_format, IH.
Qed.

Lemma three_each_format keywords :
  Forall keyword_shaped keywords →
  (keywords ≫= λ k, first_three (TaskSuggestionEngine.format_keyword k)) =
  three_each keywords.
Proof.
  unfold three_each. induction 1 as [|k ks Hk _ IH]; csimpl; [done|].
  by rewrite keyword_shaped_format, IH.
Qed.

Lemma capitalize_NoDup keywords :
  Forall keyword_shaped keywords → NoDup keywords →
  NoDup (Py.capitalize <$> keywords).
Proof.
  intros Hshape Hnd. apply (NoDup_fmap_1 Py.lower).
  by rewrite lower_capitalize_fmap.
Qed.

Lemma three_each_length keywords :
  length (three_each keywords) = 3 * length keywords.
Proof.
  unfold three_each. induction keywords as [|k ks IH]; csimpl; [done|].
  rewrite IH. lia.
Qed.

Lemma synthesize_exact keywords :
  Forall keyword_shaped keywords → NoDup keywords →
  titles_of (TaskSuggestionEngine.synthesize keywords) = three_each keywords.
Proof.
  intros Hshape Hnd. unfold TaskSuggestionEngine.synthesize.
  rewrite keyword_loop_exact.
  - by rewrite three_each_format.
  - apply consistent_init.
  - rewrite format_keyword_fmap by done. by apply capitalize_NoDup.
  - by intros t k ?%elem_of_nil.
Qed.

Lemma ranked_list_count db :
  omap title db ≠ [] →
  length (ranked_list db) =
  min 5 (size (list_to_set (combined_keywords db) : gset string)).
Proof.
  intros Htitles. unfold ranked_list. rewrite rank_keywords_eq.
  rewrite bool_decide_eq_false_2 by done.
  case_bool_decide as Hks; simpl; [|apply top_keywords_spec].
  rewrite Hks. reflexivity.
Qed.

(** X5. For a store of ASCII texts the result of a call is what the first
    three templates make of the ranked keywords, capitalized, in ranked
    order: exactly 3 suggestions per ranked keyword, so with a title in the
    store 3 times the number of distinct keywords, up to 15. No title is
    skipped as a duplicate, and the last three templates are not used. *)
Theorem suggestions_exact db :
  Forall ascii_text (omap title db) →
  Forall ascii_text (omap description db) →
  let result := titles_of (TaskSuggestionEngine.generate_suggestions db).1 in
  result = three_each (ranked_list db) ∧
  length result = 3 * length (ranked_list db) ∧
  (omap title db ≠ [] →
   length result =
   3 * min 5 (size (list_to_set (combined_keywords db) : gset string))) ∧
  ∀ t fk, t ∈ result →
    t ≠ Py.format "Schedule meeting for {}" fk ∧
    t ≠ Py.format "Prepare report regarding {}" fk ∧
    t ≠ Py.format "Start working on {}" fk.
Proof.
  intros _ _. cbv zeta. rewrite generate_suggestions_ranked.
  rewrite synthesize_exact
    by (apply ranked_list_shaped || apply ranked_list_NoDup).
  split_and!; [done|apply three_each_length| |].
  { intros Htitles. by rewrite three_each_length, ranked_list_count. }
  intros t fk Ht. unfold three_each in Ht.
  apply list_elem_of_bind in Ht as (k & Ht & _).
  unfold first_three in Ht. rewrite !elem_of_cons, elem_of_nil in Ht.
  destruct Ht as [->|[->|[->|[]]]]; split_and!; intros Heq;
    apply format_inj in Heq as [Heq _]; try discriminate Heq;
    unfold TaskSuggestionEngine.suggestion_templates;
    rewrite !elem_of_cons; auto 7.
Qed.

(** ** The fallback *)

Lemma ranked_list_nil db :
  ranked_list db = [] ↔ omap title db = [] ∨ combined_keywords db = [].
Proof.
  unfold ranked_list. rewrite rank_keywords_eq.
  case_bool_decide as Ht; simpl; [by split; auto|].
  case_bool_decide as Hk; simpl; [by split; auto|].
  split; [|by intros [?|?]].
  intros Hnil%fmap_nil_inv. by apply most_common_nonempty in Hnil.
Qed.

Lemma generate_suggestions_nil db :
  (TaskSuggestionEngine.generate_suggestions db).1 = [] ↔ ranked_list db = [].
Proof.
  rewrite generate_suggestions_ranked. split; [|by intros ->].
  intros Hnil.
  pose proof (synthesize_exact _ (ranked_list_shaped db) (ranked_list_NoDup db))
    as Hex.
  rewrite Hnil in Hex. apply (f_equal length) in Hex.
  rewrite three_each_length in Hex. simpl in Hex.
  destruct (ranked_list db); [done|simpl in Hex; lia].
Qed.

Lemma generate_suggestions_log db :
  (TaskSuggestionEngine.generate_suggestions db).2 =
  if bool_decide (omap title db = []) then [SelectTitle]
  else [SelectTitle; SelectDescription].
Proof.
  rewrite generate_suggestions_eq, rank_keywords_eq. simpl.
  by repeat case_bool_decide.
Qed.

(** X6. The endpoint answers with the three default suggestions exactly when
    the store has no title or its texts yield no keyword, which is exactly
    when the engine returns nothing; otherwise it answers with the engine's
    suggestions. It issues the query for the titles and, exactly when there
    is a title, the query for the descriptions, and no other query. *)
Theorem fallback_exactly_when_nothing_to_mine db :
  let nothing := omap title db = [] ∨ combined_keywords db = [] in
  ((TaskSuggestionEngine.generate_suggestions db).1 = [] ↔ nothing) ∧
  ((get_smart_suggestions db).1 = default_suggestions ↔ nothing) ∧
  (¬ nothing →
   (get_smart_suggestions db).1 =
   (TaskSuggestionEngine.generate_suggestions db).1) ∧
  (get_smart_suggestions db).2 =
    if bool_decide (omap title db = []) then [SelectTitle]
    else [SelectTitle; SelectDescription].
Proof.
  cbv zeta. rewrite get_smart_suggestions_eq. simpl.
  rewrite generate_suggestions_log.
  assert ((TaskSuggestionEngine.generate_suggestions db).1 = [] ↔
          omap title db = [] ∨ combined_keywords db = []) as Hiff.
  { rewrite generate_suggestions_nil. apply ranked_list_nil. }
  split_and!; [done| | |done].
  - case_bool_decide as Hnil; [split; [by intros _; apply Hiff|done]|].
    split; [|by intros ?%Hiff].
    intros Hdef. apply (f_equal titles_of) in Hdef.
    rewrite generate_suggestions_ranked, synthesize_exact in Hdef
      by (apply ranked_list_shaped || apply ranked_list_NoDup).
    rewrite generate_suggestions_nil in Hnil.
    destruct (ranked_list db) as [|k ks]; [done|]. discriminate Hdef.
  - intros Hsome. rewrite bool_decide_eq_false_2; [done|].
    intros Hnil. by apply Hsome, Hiff.
Qed.

(** ** Formatting a keyword *)

Lemma split_on_nonempty sep s : Py.split_on sep s ≠ [].
Proof. destruct s as [|c s]; simpl; [done|]. by repeat case_match. Qed.

Lemma split_on_parts sep s part :
  part ∈ Py.split_on sep s → sep ∉ chars part.
Proof.
  unfold chars. revert part. induction s as [|c s IH]; intros part; simpl.
  - intros ->%list_elem_of_singleton. apply not_elem_of_nil.
  - destruct (Ascii.eqb_spec c sep) as [->|Hne].
    + intros [->|Hin]%elem_of_cons; [apply not_elem_of_nil|by apply IH].
    + pose proof (split_on_nonempty sep s).
      destruct (Py.split_on sep s) as [|p ps]; [done|].
      intros [->|Hin]%elem_of_cons.
      * simpl. apply not_elem_of_cons. split; [done|]. apply IH. left.
      * apply IH. by right.
Qed.

Lemma capitalize_hyphen part :
  "-"%char ∈ chars (Py.capitalize part) → "-"%char ∈ chars part.
Proof.
  unfold chars. destruct part as [|c s]; simpl; [done|].
  intros [Hc|Hin]%elem_of_cons.
  - symmetry in Hc. apply upper_char_hyphen in Hc as ->. left.
  - right. fold (chars (Py.lower s)) in Hin. unfold Py.lower in Hin.
    rewrite chars_map_chars in Hin.
    apply list_elem_of_fmap in Hin as (a & Ha & Hin).
    symmetry in Ha. by apply lower_char_hyphen in Ha as ->.
Qed.

Lemma join_chars sep parts c :
  c ∈ chars (Py.join sep parts) →
  c ∈ chars sep ∨ ∃ part, part ∈ parts ∧ c ∈ chars part.
Proof.
  induction parts as [|p ps IH]; [by intros ?%elem_of_nil|].
  destruct ps as [|p' ps].
  - intros Hc. right. exists p. split; [left|done].
  - change (Py.join sep (p :: p' :: ps))
      with (p +:+ sep +:+ Py.join sep (p' :: ps)).
    rewrite !chars_append, !elem_of_app. intros [Hc|[Hc|Hc]].
    + right. exists p. split; [left|done].
    + by left.
    + destruct (IH Hc) as [?|(part & ? & ?)]; [by left|].
      right. exists part. split; [by right|done].
Qed.

Lemma length_capitalize s : String.length (Py.capitalize s) = String.length s.
Proof.
  destruct s as [|c s]; simpl; [done|]. f_equal.
  induction s as [|a s IH]; simpl; [done|by f_equal].
Qed.

Lemma length_join_cons sep p ps :
  String.length (Py.join sep (p :: ps)) =
  String.length p +
  (if ps is [] then 0 else String.length sep + String.length (Py.join sep ps)).
Proof.
  destruct ps as [|p' ps]; [simpl; lia|].
  change (Py.join sep (p :: p' :: ps))
    with (p +:+ sep +:+ Py.join sep (p' :: ps)).
  by rewrite !length_append.
Qed.

Lemma length_format_keyword keyword :
  String.length (TaskSuggestionEngine.format_keyword keyword) =
  String.length keyword.
Proof.
  unfold TaskSuggestionEngine.format_keyword.
  induction keyword as [|c s IH]; [done|]. cbn [Py.split_on String.length].
  pose proof (split_on_nonempty "-" s) as Hne.
  destruct (Py.split_on "-" s) as [|p ps]; [done|].
  destruct (Ascii.eqb c "-").
  - rewrite fmap_cons, length_join_cons, IH. by rewrite fmap_cons.
  - rewrite fmap_cons, length_join_cons, length_capitalize in IH |- *.
    by rewrite <-IH.
Qed.

(** X7. Formatting an ASCII keyword, with or without hyphens, leaves no
    hyphen and keeps the length: every hyphen gives way to one space. *)
Theorem format_keyword_no_hyphen keyword :
  ascii_text keyword →
  ("-"%char ∉ chars (TaskSuggestionEngine.format_keyword keyword)) ∧
  String.length (TaskSuggestionEngine.format_keyword keyword) =
  String.length keyword.
Proof.
  intros _.
  split; [|apply length_format_keyword].
  unfold TaskSuggestionEngine.format_keyword.
  intros [Hsep|(part & Hpart & Hc)]%join_chars.
  - by apply list_elem_of_singleton in Hsep.
  - apply list_elem_of_fmap in Hpart as (p & -> & Hp).
    apply capitalize_hyphen in Hc. by apply split_on_parts in Hp.
Qed.

(** ** Reading and deleting one task *)

Lemma first_by_id_Some task_id db row :
  first_by_id task_id db = Some row →
  row ∈ db ∧ Z.of_nat (id row) = task_id.
Proof.
  unfold first_by_id. induction db as [|r db IH]; simpl; [done|].
  case_bool_decide as Hr.
  - intros [= <-]. split; [left|done].
  - intros [? ?]%IH. split; [by right|done].
Qed.

Lemma first_by_id_None task_id db :
  first_by_id task_id db = None ↔
  ∀ row, row ∈ db → Z.of_nat (id row) ≠ task_id.
Proof.
  unfold first_by_id. induction db as [|r db IH]; simpl.
  - split; [by intros _ row ?%elem_of_nil|done].
  - case_bool_decide as Hr.
    + split; [done|]. intros Hall. destruct (Hall r); [left|done].
    + rewrite IH. split.
      * intros Hall row [->|?]%elem_of_cons; auto.
      * intros Hall row ?. apply Hall. by right.
Qed.

Lemma first_by_id_unique task_id db row :
  unique_ids db → row ∈ db → Z.of_nat (id row) = task_id →
  first_by_id task_id db = Some row.
Proof.
  unfold unique_ids, first_by_id. induction db as [|r db IH]; csimpl.
  { by intros _ ?%elem_of_nil. }
  intros [Hr Hnd]%NoDup_cons [->|Hin]%elem_of_cons Hid.
  - by rewrite bool_decide_eq_true_2.
  - rewrite bool_decide_eq_false_2; [by apply IH|].
    intros Heq. apply Hr. apply list_elem_of_fmap. exists row.
    split; [lia|done].
Qed.

Lemma first_by_id_filter task_id j db :
  first_by_id j (filter (λ row, Z.of_nat (id row) ≠ task_id) db) =
  if decide (j = task_id) then None else first_by_id j db.
Proof.
  unfold first_by_id, Session. induction db as [|r db IH];
    [simpl; by case_decide|].
  rewrite filter_cons. destruct (decide (Z.of_nat (id r) ≠ task_id)) as [Hr|Hr].
  - cbn [find]. rewrite IH. case_bool_decide; [|done].
    case_decide; [congruence|done].
  - rewrite IH. apply dec_stable in Hr. case_decide as Hj; [done|].
    cbn [find]. rewrite bool_decide_eq_false_2; [done|congruence].
Qed.

Lemma filter_all {A} (P : A → Prop) `{!∀ x, Decision (P x)} (l : list A) :
  (∀ x, x ∈ l → P x) → filter P l = l.
Proof.
  induction l as [|x l IH]; [done|]. intros Hall.
  rewrite filter_cons_True by (apply Hall; left).
  f_equal. apply IH. intros y Hy. apply Hall. by right.
Qed.

Lemma delete_length task_id db row :
  unique_ids db → row ∈ db → Z.of_nat (id row) = task_id →
  length (filter (λ r, Z.of_nat (id r) ≠ task_id) db) + 1 = length db.
Proof.
  unfold unique_ids, Session. induction db as [|r db IH].
  { by intros _ ?%elem_of_nil. }
  rewrite fmap_cons. cbn [length].
  intros [Hr Hnd]%NoDup_cons Hin Hid.
  destruct (decide (Z.of_nat (id r) = task_id)) as [Heq|Hne].
  - rewrite filter_cons_False by (intros ?; done).
    rewrite filter_all; [lia|]. intros r' Hr' Hid'. apply Hr.
    apply list_elem_of_fmap. exists r'. split; [lia|done].
  - rewrite filter_cons_True by done. simpl. f_equal. apply IH; [done| |done].
    apply elem_of_cons in Hin as [->|?]; [done|done].
Qed.

(** X8. For an identifier the database can store, reading a task returns a
    row of the table that has the identifier asked for, and answers 404
    "Task not found" exactly when no row has it; under the primary key a row
    of the table is the one read by its identifier. *)
Theorem get_task_lookup task_id db :
  stored_integer task_id →
  (∀ row, get_task task_id db = inr row →
          row ∈ db ∧ Z.of_nat (id row) = task_id) ∧
  (∀ e, get_task task_id db = inl e →
        e = {| status_code := 404; detail := "Task not found" |}) ∧
  (get_task task_id db = inl task_not_found ↔
   ∀ row, row ∈ db → Z.of_nat (id row) ≠ task_id) ∧
  (unique_ids db →
   ∀ row, row ∈ db → Z.of_nat (id row) = task_id →
          get_task task_id db = inr row).
Proof.
  intros _. unfold get_task. split_and!.
  - intros row. destruct (first_by_id task_id db) as [r|] eqn:Hfind; [|done].
    intros [= <-]. by apply first_by_id_Some.
  - intros e. destruct (first_by_id task_id db); [done|]. by intros [= <-].
  - rewrite <-first_by_id_None. by destruct (first_by_id task_id db).
  - intros Hids row Hrow Hid. by rewrite (first_by_id_unique _ _ row).
Qed.

(** X9. Deleting a task fails with 404 exactly when reading it does. When it
    succeeds, the task can no longer be read nor deleted again, every other
    identifier reads as before, the remaining rows are rows of the old table
    in their order, and under the primary key exactly one row is gone and the
    key still holds. *)
Theorem delete_task_effect task_id db :
  (delete_task task_id db = inl task_not_found ↔
   get_task task_id db = inl task_not_found) ∧
  (∀ message db',
     delete_task task_id db = inr (message, db') →
     message = "Task with id: " +:+ pretty task_id +:+ " deleted successfully" ∧
     get_task task_id db' = inl task_not_found ∧
     delete_task task_id db' = inl task_not_found ∧
     (∀ j, j ≠ task_id → get_task j db' = get_task j db) ∧
     db' `sublist_of` db ∧
     (unique_ids db → length db' + 1 = length db ∧ unique_ids db')).
Proof.
  unfold delete_task, get_task, Session. split.
  { by destruct (first_by_id task_id db). }
  intros message db'.
  destruct (first_by_id task_id db) as [row|] eqn:Hfind; [|done].
  intros [= <- <-]. apply first_by_id_Some in Hfind as [Hrow Hid].
  rewrite !first_by_id_filter, decide_True by done.
  split_and!; [done..| | |].
  - intros j Hj. by rewrite first_by_id_filter, decide_False.
  - apply sublist_filter.
  - intros Hids. split; [by eapply delete_length|].
    unfold unique_ids in *. eapply sublist_NoDup; [exact Hids|].
    apply fmap_sublist, sublist_filter.
Qed.

Lemma count_status_sum db :
  count_status PENDING db + count_status IN_PROGRESS db +
  count_status COMPLETED db = length db.
Proof.
  unfold count_status, Session. induction db as [|row db IH]; [done|].
  rewrite !filter_cons. cbn [length].
  destruct (status row); repeat case_decide; try done; cbn [length]; lia.
Qed.

(** X10. The counts by status add up: every task is pending, in progress or
    completed, so the three counts sum to the total, and none exceeds it. *)
Theorem status_counts_partition db :
  let counts := get_task_counts db in
  pending_tasks counts + in_progress_tasks counts + completed_tasks counts =
    total_tasks counts ∧
  pending_tasks counts ≤ total_tasks counts ∧
  in_progress_tasks counts ≤ total_tasks counts ∧
  completed_tasks counts ≤ total_tasks counts.
Proof.
  cbv zeta. unfold get_task_counts.
  cbn [total_tasks pending_tasks in_progress_tasks completed_tasks].
  pose proof (count_status_sum db). lia.
Qed.

(** ** The first suggestion *)

Lemma ranks_before_le ks a b :
  ranks_before ks a b →
  occurrences b ks ≤ occurrences a ks ∧
  (occurrences b ks = occurrences a ks →
   first_index a ks ≤ first_index b ks).
Proof. unfold ranks_before. lia. Qed.

Lemma ranked_list_top db :
  omap title db ≠ [] → top_ranked 5 (combined_keywords db) (ranked_list db).
Proof.
  intros Htitles. unfold ranked_list. rewrite rank_keywords_eq.
  rewrite bool_decide_eq_false_2 by done.
  case_bool_decide as Hks; simpl; [|apply top_keywords_spec].
  rewrite Hks. apply top_ranked_nil.
Qed.

(** X11. When the engine returns suggestions, the first one is "Follow-up on"
    the capitalized first ranked keyword, and that keyword occurs in the
    store's texts at least as often as any other keyword and, among those
    occurring as often, first. *)
Theorem first_suggestion_most_frequent db first others :
  (TaskSuggestionEngine.generate_suggestions db).1 = first :: others →
  ∃ keyword,
    suggested_title first = "Follow-up on " +:+ Py.capitalize keyword ∧
    keyword ∈ combined_keywords db ∧
    ∀ other, other ∈ combined_keywords db →
      occurrences other (combined_keywords db) ≤
        occurrences keyword (combined_keywords db) ∧
      (occurrences other (combined_keywords db) =
         occurrences keyword (combined_keywords db) →
       first_index keyword (combined_keywords db) ≤
         first_index other (combined_keywords db)).
Proof.
  intros Hres.
  assert (omap title db ≠ []) as Htitles.
  { intros Hnil. assert (ranked_list db = []) as Hr by by apply ranked_list_nil; left.
    apply generate_suggestions_nil in Hr. by rewrite Hr in Hres. }
  apply (f_equal titles_of) in Hres.
  rewrite generate_suggestions_ranked, synthesize_exact in Hres
    by (apply ranked_list_shaped || apply ranked_list_NoDup).
  destruct (ranked_list_top db Htitles) as (Hnd & Hin & _ & Hsorted & Hout).
  destruct (ranked_list db) as [|k ks]; [done|]. exists k.
  injection Hres as Hfirst _. split_and!.
  - rewrite <-Hfirst. change (Py.format "Follow-up on {}" (Py.capitalize k))
      with ("Follow-up on " +:+ (Py.capitalize k +:+ "")).
    by rewrite append_nil_r.
  - apply Hin. left.
  - intros other Hother. apply StronglySorted_cons in Hsorted as [Hk _].
    destruct (decide (other = k)) as [->|Hne]; [lia|].
    apply ranks_before_le.
    destruct (decide (other ∈ ks)) as [Hks|Hks].
    + rewrite Forall_forall in Hk. by apply Hk.
    + apply Hout; [done| |left]. by intros [?|?]%elem_of_cons.
Qed.

(** ** Texts without keywords *)

Lemma pieces_blank s :
  Forall (λ c, Py.is_space c = true) (chars s) →
  Forall (λ piece, piece = "") (pieces s).
Proof.
  unfold chars. induction s as [|c s IH]; simpl; [by repeat constructor|].
  intros [-> Hs]%Forall_cons. constructor; [done|by apply IH].
Qed.

Lemma filter_none {A} (P : A → Prop) `{!∀ x, Decision (P x)} (l : list A) :
  Forall (λ x, ¬ P x) l → filter P l = [].
Proof.
  induction 1 as [|x l Hx _ IH]; [done|]. by rewrite filter_cons_False.
Qed.

(** X12. An ASCII text without any letter, digit or underscore (the empty
    text, blanks, punctuation) has no keyword. *)
Theorem extract_keywords_no_word text :
  ascii_text text →
  Forall (λ c, Py.is_word c = false) (chars text) →
  TaskSuggestionEngine.extract_keywords text = [].
Proof.
  intros _.
  intros Htext. rewrite extract_keywords_tokens. unfold tokens.
  rewrite (filter_none (λ piece, piece ≠ "")); [done|].
  eapply Forall_impl; [apply pieces_blank|by intros piece -> ?].
  unfold Py.sub_special, Py.lower. rewrite !chars_map_chars.
  apply Forall_fmap, Forall_fmap. eapply Forall_impl; [exact Htext|].
  intros c Hc. simpl.
  rewrite (lower_char_fixed c (not_word_not_upper c Hc)), Hc. simpl.
  by destruct (Py.is_space c) eqn:Hs.
Qed.

(** ** ASCII text under any tables *)

(** X13. On ASCII text the keywords do not depend on what the Unicode
    tables say beyond ASCII: with any tables that classify and lower ASCII
    characters as ASCII does, the extraction on code points returns the
    keywords of the ASCII model, code point by code point. *)
Theorem ascii_text_any_tables T text :
  ascii_faithful T → ascii_text text →
  Unicode.extract_keywords T (Unicode.codes text) =
  Unicode.codes <$> TaskSuggestionEngine.extract_keywords text.
Proof.
  intros HT Htext.
  pose proof (faithful_extract_keywords T text HT Htext) as Heq.
  exact Heq.
Qed.

(** ** Further instances *)

Lemma extract_keywords_separator_witness :
  TaskSuggestionEngine.extract_keywords
    ("Plan budget" +:+ "--, " +:+ "budget review") =
  ["plan"; "budget"] ++ ["budget"; "review"].
Proof.
  rewrite (extract_keywords_separator "Plan budget" "--, " "budget review");
    [by vm_compute|by_computation|by_computation|by_computation|done
    |by repeat constructor].
Defined.

Lemma delete_task_effect_witness :
  delete_task 2 login_store =
    inr ("Task with id: 2 deleted successfully",
         [ task 1 (Some "Fix login bug") (Some "Login page crashes");
           task 3 (Some "Review login flow") (Some "Check the release flow") ]) ∧
  get_task 2
    [ task 1 (Some "Fix login bug") (Some "Login page crashes");
      task 3 (Some "Review login flow") (Some "Check the release flow") ] =
    inl task_not_found.
Proof.
  assert (delete_task 2 login_store =
    inr ("Task with id: 2 deleted successfully",
         [ task 1 (Some "Fix login bug") (Some "Login page crashes");
           task 3 (Some "Review login flow") (Some "Check the release flow") ]))
    as Hdel by (vm_compute; reflexivity).
  split; [exact Hdel|].
  exact (proj1 (proj2 (proj2 (delete_task_effect 2 login_store) _ _ Hdel))).
Defined.

Lemma get_task_lookup_witness :
  get_task 3 login_store =
  inr (task 3 (Some "Review login flow") (Some "Check the release flow")).
Proof.
  assert (stored_integer 3) as Hid by (unfold stored_integer; lia).
  assert (unique_ids login_store) as Hids.
  { apply (bool_decide_unpack _). vm_compute. exact I. }
  assert (task 3 (Some "Review login flow") (Some "Check the release flow")
            ∈ login_store) as Hrow.
  { unfold login_store. rewrite !elem_of_cons. auto. }
  exact (proj2 (proj2 (proj2 (get_task_lookup 3 login_store Hid)))
           Hids _ Hrow eq_refl).
Defined.

Lemma first_suggestion_most_frequent_witness :
  ∃ keyword,
    "Follow-up on Login" = "Follow-up on " +:+ Py.capitalize keyword ∧
    keyword ∈ combined_keywords login_store.
Proof.
  destruct (first_suggestion_most_frequent login_store
              {| suggested_title := "Follow-up on Login" |}
              (tail (TaskSuggestionEngine.generate_suggestions login_store).1))
    as (keyword & Hfirst & Hin & _); [by vm_compute|].
  by exists keyword.
Defined.

Lemma extract_keywords_no_word_witness :
  TaskSuggestionEngine.extract_keywords " -- ?! " = [].
Proof.
  apply (extract_keywords_no_word " -- ?! ");
    [by_computation|by repeat constructor].
Defined.

Lemma extracted_keyword_shape_witness :
  Forall (λ keyword,
            keyword_shaped keyword ∧
            Forall (λ c, Py.is_upper c = false ∧ Py.is_space c = false ∧
                         Py.is_word c = true) (chars keyword))
    ["plan"; "report"; "plan"].
Proof.
  apply (extracted_keyword_shape "Plan the Q3 Report!! (re-plan)").
  by_computation.
Defined.

Lemma suggestions_exact_witness :
  titles_of (TaskSuggestionEngine.generate_suggestions login_store).1 =
  three_each ["login"; "release"; "flow"; "fix"; "bug"].
Proof.
  apply (suggestions_exact login_store); by_computation.
Defined.

Lemma format_keyword_no_hyphen_witness :
  String.length (TaskSuggestionEngine.format_keyword "project-plan") = 12.
Proof.
  apply (format_keyword_no_hyphen "project-plan"). by_computation.
Defined.

Lemma extract_keywords_spec_witness :
  Unicode.extract_keywords ascii_tables
    (Unicode.codes "Plan the Q3 Report!! (re-plan)") =
  [Unicode.codes "plan"; Unicode.codes "report"; Unicode.codes "plan"] ∧
  Unicode.codes <$>
    TaskSuggestionEngine.extract_keywords "Plan the Q3 Report!! (re-plan)" =
  keywords_of ascii_tables (Unicode.codes "Plan the Q3 Report!! (re-plan)").
Proof.
  split.
  - rewrite (proj1 extract_keywords_spec ascii_tables); [by vm_compute|done].
  - apply (proj1 (proj2 extract_keywords_spec)). by_computation.
Defined.

Lemma ascii_text_any_tables_witness :
  Unicode.extract_keywords ascii_tables (Unicode.codes "Fix the login-bug") =
  Unicode.codes <$> ["fix"; "login"; "bug"].
Proof.
  rewrite (ascii_text_any_tables ascii_tables "Fix the login-bug");
    [by vm_compute|apply ascii_tables_faithful|by_computation].
Defined.
